(** * MonitorCronJobs: the job-state resolver of [core.py]

    A shallow embedding of [enums.py], [models.py] and [core.py], and the
    properties of the resolver: liveness short-circuit, log-file location,
    frequency windows and marker classification. Around the resolver, the
    loading of [jobs.json], the command line of [cli.py] and the logic of
    [tray_app.py] that does not depend on Gtk: the grouping of the jobs, the
    icon of the tray, the update of a row and the refresh.

    The operating system is a record [World] of the answers it gives to the
    calls [core.py] makes (process table, glob, stat, clock, file reads).
    Every call leaves an [event] in a trace, so that "this branch never reads
    the file" is a statement about the trace. *)

From Stdlib Require Import ZArith Lia.
From Stdlib.Strings Require Import Byte.
From stdpp Require Import gmap strings list pretty.

Local Open Scope Z_scope.

(** ** Exceptions and outcomes *)

(** An instance of a subclass of Python's [Exception]: its class name and
    what [str(e)] gives. *)
Record exn := Exception { exn_class : string; exn_str : string }.

Inductive outcome (A : Type) : Type :=
| Ret (a : A)
| Raise (e : exn).
Arguments Ret {A} a.
Arguments Raise {A} e.

(** ** enums.py *)

Inductive JobFrequency := DAILY | WEEKLY | MONTHLY.

(** The members of a [StrEnum] are strings: they hash and compare as their
    value. *)
Definition JobFrequency_value (f : JobFrequency) : string :=
  match f with
  | DAILY => "daily"
  | WEEKLY => "weekly"
  | MONTHLY => "monthly"
  end.

Inductive JobStatus :=
| STALE | ERROR | FAILED | RUNNING | SUCCESS | CRASHED | MISSING | UNKNOWN.

Global Instance JobStatus_eq_dec : EqDecision JobStatus.
Proof. solve_decision. Defined.

(** ** datetime *)

(** A naive [datetime.datetime]: the fields the constructor stores. *)
Record datetime := mk_datetime {
  year : Z; month : Z; day : Z;
  hour : Z; minute : Z; second : Z; microsecond : Z
}.

(** The value of [os.path.getmtime]: a finite float, of which the program
    only uses the order ([max] over the matching files); finite floats are
    totally ordered and are represented here by integers in the same order. *)
Definition timestamp := Z.

(** A Python [str] read from a file: its code points. *)
Definition text := list N.

(** ** models.py *)

Record Job := mk_Job {
  name : string;
  frequency : JobFrequency;
  log_pattern : string;
  process_pattern : string
}.

Record JobState := mk_JobState {
  status : JobStatus;
  message : string;
  file : option string;
  last_modification_time : option datetime
}.

(** ** The environment of one evaluation *)

Record World := mk_World {
  (** [os.environ.get("HOME")] *)
  environ_HOME : option string;
  (** [pwd.getpwuid(os.getuid()).pw_dir], [None] for [KeyError] *)
  pw_dir_self : option string;
  (** [pwd.getpwnam(name).pw_dir], [None] for [KeyError] *)
  pw_dir : string → option string;
  (** [subprocess.call(args, ...)]: the exit status, or the exception *)
  subprocess_call : list string → outcome Z;
  (** [glob.glob(pattern)], in the order glob yields the entries *)
  glob_glob : string → list string;
  (** [os.path.getmtime(path)] *)
  getmtime : string → outcome timestamp;
  (** [datetime.fromtimestamp(t)]: local time, [ValueError]/[OverflowError]
      for a time that has no [datetime] *)
  fromtimestamp : timestamp → outcome datetime;
  (** [datetime.now()] *)
  clock : datetime;
  (** the bytes [open(path)] followed by [read()] gets, or the [OSError] *)
  read_bytes : string → outcome (list byte);
  (** the locale's codec under [errors="replace"]: total *)
  decode_replace : list byte → text
}.

(** What an evaluation asked of the operating system, in order. *)
Inductive event :=
| EvSubprocess (args : list string)
| EvGlob (pattern : string)
| EvStat (path : string)
| EvNow
| EvRead (path : string).

Global Instance event_eq_dec : EqDecision event.
Proof. solve_decision. Defined.

(** ** The monad of [core.py]: reads the world, logs its calls, may raise *)

Definition IO (A : Type) : Type := World → list event * outcome A.

Definition IO_ret {A} (a : A) : IO A := λ _, ([], Ret a).

Definition IO_bind {A B} (f : A → IO B) (m : IO A) : IO B :=
  λ w, match m w with
       | (t, Ret a) => let '(t', r) := f a w in (t ++ t', r)
       | (t, Raise e) => (t, Raise e)
       end.

Global Instance IO_MRet : MRet IO := @IO_ret.
Global Instance IO_MBind : MBind IO := @IO_bind.

Definition raise {A} (e : exn) : IO A := λ _, ([], Raise e).

(** [try: body  except Exception as e: handler(e)] *)
Definition try_except {A} (body : IO A) (handler : exn → IO A) : IO A :=
  λ w, match body w with
       | (t, Ret a) => (t, Ret a)
       | (t, Raise e) => let '(t', r) := handler e w in (t ++ t', r)
       end.

(** Lifting an answer of the world, with the event it leaves. *)
Definition ask {A} (ev : event) (answer : World → outcome A) : IO A :=
  λ w, ([ev], answer w).

Definition trace {A} (r : list event * outcome A) : list event := r.1.
Definition result {A} (r : list event * outcome A) : outcome A := r.2.

(** ** The calendar of [datetime] (the standard library's algorithms) *)

Module Calendar.

(** [_is_leap] *)
Definition is_leap (y : Z) : bool :=
  (y mod 4 =? 0) && (negb (y mod 100 =? 0) || (y mod 400 =? 0)).

(** [_days_before_year]: days before January 1st of year [y] *)
Definition days_before_year (y : Z) : Z :=
  let y' := y - 1 in y' * 365 + y' / 4 - y' / 100 + y' / 400.

(** [_DAYS_IN_MONTH], with the leap day of [_days_in_month] *)
Definition days_in_month (y m : Z) : Z :=
  if (m =? 2) && is_leap y then 29
  else match m with
       | 1 => 31 | 2 => 28 | 3 => 31 | 4 => 30 | 5 => 31 | 6 => 30
       | 7 => 31 | 8 => 31 | 9 => 30 | 10 => 31 | 11 => 30 | 12 => 31
       | _ => -1
       end.

(** [_DAYS_BEFORE_MONTH], with the leap day of [_days_before_month] *)
Definition days_before_month (y m : Z) : Z :=
  match m with
  | 1 => 0 | 2 => 31 | 3 => 59 | 4 => 90 | 5 => 120 | 6 => 151
  | 7 => 181 | 8 => 212 | 9 => 243 | 10 => 273 | 11 => 304 | 12 => 334
  | _ => -1
  end + (if (2 <? m) && is_leap y then 1 else 0).

(** [_ymd2ord]: the proleptic Gregorian ordinal, 0001-01-01 being day 1 *)
Definition ymd2ord (y m d : Z) : Z :=
  days_before_year y + days_before_month y m + d.

(** [_isoweek1monday]: the ordinal of the Monday that starts ISO week 1 *)
Definition isoweek1monday (y : Z) : Z :=
  let firstday := ymd2ord y 1 1 in
  let firstweekday := (firstday + 6) mod 7 in
  let week1monday := firstday - firstweekday in
  if 3 <? firstweekday then week1monday + 7 else week1monday.

Definition toordinal (d : datetime) : Z := ymd2ord (year d) (month d) (day d).

(** [weekday()]: Monday is 0 *)
Definition weekday (d : datetime) : Z := (toordinal d + 6) mod 7.

(** [isocalendar()]: (ISO year, ISO week, ISO weekday) *)
Definition isocalendar (d : datetime) : Z * Z * Z :=
  let y := year d in
  let week1monday := isoweek1monday y in
  let today := toordinal d in
  let week := (today - week1monday) / 7 in
  let wday := (today - week1monday) mod 7 in
  if week <? 0 then
    let y := y - 1 in
    let week1monday := isoweek1monday y in
    (y, (today - week1monday) / 7 + 1, (today - week1monday) mod 7 + 1)
  else if (52 <=? week) && (isoweek1monday (y + 1) <=? today) then
    (y + 1, 1, wday + 1)
  else (y, week + 1, wday + 1).

(** [date()]: the calendar day, as the triple that [date.__eq__] compares *)
Definition date (d : datetime) : Z * Z * Z := (year d, month d, day d).

(** What the constructor of [datetime] accepts. *)
Definition valid_datetime (d : datetime) : bool :=
  (1 <=? year d) && (year d <=? 9999) &&
  (1 <=? month d) && (month d <=? 12) &&
  (1 <=? day d) && (day d <=? days_in_month (year d) (month d)) &&
  (0 <=? hour d) && (hour d <? 24) &&
  (0 <=? minute d) && (minute d <? 60) &&
  (0 <=? second d) && (second d <? 60) &&
  (0 <=? microsecond d) && (microsecond d <? 1000000).

End Calendar.

(** ** [os.path.expanduser] (posixpath) *)

Module PosixPath.

(** The separator [/]. *)
Definition sep : Ascii.ascii := Ascii.ascii_of_nat 47.

(** [s.rstrip(sep)] *)
Fixpoint rstrip_sep (s : string) : string :=
  match s with
  | EmptyString => EmptyString
  | String c s' =>
      match rstrip_sep s' with
      | EmptyString => if Ascii.eqb c sep then EmptyString else String c EmptyString
      | r => String c r
      end
  end.

(** [path.find("/", 1)], with [len(path)] when there is none *)
Definition find_sep (path : string) : nat :=
  match String.index 1 "/" path with
  | Some i => i
  | None => String.length path
  end.

(** [path[i:]] *)
Definition slice_from (i : nat) (path : string) : string :=
  String.substring i (String.length path - i) path.

Definition expanduser (w : World) (path : string) : string :=
  if negb (String.prefix "~" path) then path
  else
    let i := find_sep path in
    let userhome :=
      if Nat.eqb i 1 then
        match environ_HOME w with
        | Some h => Some h
        | None => pw_dir_self w
        end
      else pw_dir w (String.substring 1 (i - 1) path) in
    match userhome with
    | None => path
    | Some h =>
        match rstrip_sep h +:+ slice_from i path with
        | EmptyString => "/"
        | r => r
        end
    end.

End PosixPath.

(** ** [needle in haystack] on strings *)

Fixpoint startswith (needle hay : text) : bool :=
  match needle, hay with
  | [], _ => true
  | _ :: _, [] => false
  | a :: needle', b :: hay' => (a =? b)%N && startswith needle' hay'
  end.

Fixpoint contains (needle hay : text) : bool :=
  startswith needle hay ||
  match hay with
  | [] => false
  | _ :: hay' => contains needle hay'
  end.

(** The code points of a string literal of the source (ASCII). *)
Definition str (s : string) : text :=
  map Byte.to_N (String.list_byte_of_string s).

(** ** core.py *)

Definition MARKER_FAILED : text := str "[JOB FAILED]".
Definition MARKER_SUCCESS : text := str "[JOB SUCCEEDED]".
Definition MARKER_STARTED : text := str "[JOB STARTED]".

(** *** The calls to the operating system *)

Definition os_path_expanduser (path : string) : IO string :=
  λ w, ([], Ret (PosixPath.expanduser w path)).

Definition glob (pattern : string) : IO (list string) :=
  ask (EvGlob pattern) (λ w, Ret (glob_glob w pattern)).

Definition os_path_getmtime (path : string) : IO timestamp :=
  ask (EvStat path) (λ w, getmtime w path).

Definition datetime_fromtimestamp (t : timestamp) : IO datetime :=
  λ w, ([], fromtimestamp w t).

Definition datetime_now : IO datetime :=
  ask EvNow (λ w, Ret (clock w)).

Definition subprocess_call_devnull (args : list string) : IO Z :=
  ask (EvSubprocess args) (λ w, subprocess_call w args).

(** [with open(filepath, "r", errors="replace") as f: content = f.read()] *)
Definition open_read (filepath : string) : IO text :=
  ask (EvRead filepath)
      (λ w, match read_bytes w filepath with
            | Ret bs => Ret (decode_replace w bs)
            | Raise e => Raise e
            end).

(** [max(items, key=key)]: the key of every item is computed once, in
    order, and an item replaces the current maximum only when its key is
    strictly greater. *)
Fixpoint max_loop (key : string → IO timestamp) (items : list string)
    (maxitem : string) (maxval : timestamp) : IO string :=
  match items with
  | [] => mret maxitem
  | item :: rest =>
      val ← key item;
      if maxval <? val then max_loop key rest item val
      else max_loop key rest maxitem maxval
  end.

Definition max_key (items : list string) (key : string → IO timestamp) : IO string :=
  match items with
  | [] => raise (Exception "ValueError" "max() iterable argument is empty")
  | item :: rest => val ← key item; max_loop key rest item val
  end.

(** *** Frequency windows *)

Definition _check_daily (last_run current_time : datetime) : bool :=
  bool_decide (Calendar.date last_run = Calendar.date current_time).

Definition _check_weekly (last_run current_time : datetime) : bool :=
  bool_decide ((Calendar.isocalendar last_run).1 = (Calendar.isocalendar current_time).1).

Definition _check_monthly (last_run current_time : datetime) : bool :=
  bool_decide (month last_run = month current_time) &&
  bool_decide (year last_run = year current_time).

Definition FREQUENCY_STRATEGIES : gmap string (datetime → datetime → bool) :=
  {[ JobFrequency_value DAILY := _check_daily;
     JobFrequency_value WEEKLY := _check_weekly;
     JobFrequency_value MONTHLY := _check_monthly ]}.

(** The [frequency] argument is the key handed to the dictionary: a member
    of [JobFrequency] or, as in the tests, any other string. *)
Definition is_execution_within_current_interval
    (last_run : datetime) (frequency : string) (current_time : option datetime) : IO bool :=
  current_time ← match current_time with
                 | None => datetime_now
                 | Some t => mret t
                 end;
  match FREQUENCY_STRATEGIES !! frequency with
  | None => mret false
  | Some check_strategy => mret (check_strategy last_run current_time)
  end.

(** *** The liveness probe *)

Definition is_job_running (pattern : option string) : IO bool :=
  match pattern with
  | None | Some EmptyString => mret false
  | Some pattern =>
      try_except
        (rc ← subprocess_call_devnull ["pgrep"; "-f"; pattern];
         mret (rc =? 0))
        (λ _, mret false)
  end.

(** *** The log-file locator *)

Definition get_latest_log_file (job : Job) : IO (option string) :=
  log_pattern ← os_path_expanduser (log_pattern job);
  files ← glob log_pattern;
  match files with
  | [] => mret None
  | _ :: _ => latest ← max_key files os_path_getmtime; mret (Some latest)
  end.

(** *** The classifier *)

Definition _analyze_log_file (filepath : string) (modification_time : datetime) : IO JobState :=
  try_except
    (content ← open_read filepath;
     if contains MARKER_FAILED content then
       mret (mk_JobState FAILED "Failed" (Some filepath) (Some modification_time))
     else if contains MARKER_SUCCESS content then
       mret (mk_JobState SUCCESS "Finished" (Some filepath) (Some modification_time))
     else if contains MARKER_STARTED content then
       mret (mk_JobState CRASHED "Crashed" (Some filepath) (Some modification_time))
     else
       mret (mk_JobState UNKNOWN "Unknown log format" (Some filepath) (Some modification_time)))
    (λ e, mret (mk_JobState ERROR (exn_str e) (Some filepath) None)).

(** *** The resolver *)

(** [not latest_file] holds of [None] and of the empty string. *)
Definition get_job_state (job : Job) : IO JobState :=
  running ← is_job_running (Some (process_pattern job));
  if (running : bool) then
    latest ← get_latest_log_file job;
    mret (mk_JobState RUNNING "Process active" latest None)
  else
    latest_file ← get_latest_log_file job;
    match latest_file with
    | None | Some EmptyString => mret (mk_JobState MISSING "No logs found" None None)
    | Some path =>
        mtime ← os_path_getmtime path;
        last_log_modification_time ← datetime_fromtimestamp mtime;
        fresh ← is_execution_within_current_interval
                  last_log_modification_time (JobFrequency_value (frequency job)) None;
        if negb (fresh : bool) then
          mret (mk_JobState STALE "Pending" (Some path) (Some last_log_modification_time))
        else _analyze_log_file path last_log_modification_time
    end.

(** ** A codec: UTF-8 under [errors="replace"]

    Every maximal ill-formed prefix of a sequence becomes one U+FFFD. *)

Module UTF8.

Definition REPLACEMENT : N := 65533.

Definition between (lo hi b : N) : bool := ((lo <=? b) && (b <=? hi))%N.

Definition continuation (b : N) : bool := between 128 191 b.

(** The range of the second byte after the lead byte [b0]. *)
Definition second_lo (b0 : N) : N :=
  (if b0 =? 224 then 160 else if b0 =? 240 then 144 else 128)%N.
Definition second_hi (b0 : N) : N :=
  (if b0 =? 237 then 159 else if b0 =? 244 then 143 else 191)%N.

Fixpoint decode_N (bs : list N) : text :=
  match bs with
  | [] => []
  | b0 :: r0 =>
      if (b0 <? 128)%N then b0 :: decode_N r0
      else if between 194 223 b0 then
        match r0 with
        | b1 :: r1 =>
            if continuation b1
            then ((b0 - 192) * 64 + (b1 - 128))%N :: decode_N r1
            else REPLACEMENT :: decode_N r0
        | [] => [REPLACEMENT]
        end
      else if between 224 239 b0 then
        match r0 with
        | b1 :: r1 =>
            if between (second_lo b0) (second_hi b0) b1 then
              match r1 with
              | b2 :: r2 =>
                  if continuation b2
                  then ((b0 - 224) * 4096 + (b1 - 128) * 64 + (b2 - 128))%N
                         :: decode_N r2
                  else REPLACEMENT :: decode_N r1
              | [] => [REPLACEMENT]
              end
            else REPLACEMENT :: decode_N r0
        | [] => [REPLACEMENT]
        end
      else if between 240 244 b0 then
        match r0 with
        | b1 :: r1 =>
            if between (second_lo b0) (second_hi b0) b1 then
              match r1 with
              | b2 :: r2 =>
                  if continuation b2 then
                    match r2 with
                    | b3 :: r3 =>
                        if continuation b3
                        then ((b0 - 240) * 262144 + (b1 - 128) * 4096
                              + (b2 - 128) * 64 + (b3 - 128))%N :: decode_N r3
                        else REPLACEMENT :: decode_N r2
                    | [] => [REPLACEMENT]
                    end
                  else REPLACEMENT :: decode_N r1
              | [] => [REPLACEMENT]
              end
            else REPLACEMENT :: decode_N r0
        | [] => [REPLACEMENT]
        end
      else REPLACEMENT :: decode_N r0
  end.

Definition decode (bs : list byte) : text := decode_N (map Byte.to_N bs).

(** The bytes of a string literal. *)
Definition bytes (s : string) : list byte := String.list_byte_of_string s.

End UTF8.

(** ** The layers around the resolver *)

(** *** Values, dictionaries and lists of Python *)

Global Instance JobFrequency_eq_dec : EqDecision JobFrequency.
Proof. solve_decision. Defined.

Global Instance JobStatus_countable : Countable JobStatus.
Proof.
  refine (inj_countable'
            (λ s, match s with
                  | STALE => 0 | ERROR => 1 | FAILED => 2 | RUNNING => 3
                  | SUCCESS => 4 | CRASHED => 5 | MISSING => 6 | UNKNOWN => 7
                  end%nat)
            (λ n, match n with
                  | 0 => STALE | 1 => ERROR | 2 => FAILED | 3 => RUNNING
                  | 4 => SUCCESS | 5 => CRASHED | 6 => MISSING | _ => UNKNOWN
                  end%nat) _).
  by intros [].
Defined.

(** [status.value]: every member of [JobStatus] is valued by its name. *)
Definition JobStatus_value (s : JobStatus) : string :=
  match s with
  | STALE => "STALE" | ERROR => "ERROR" | FAILED => "FAILED"
  | RUNNING => "RUNNING" | SUCCESS => "SUCCESS" | CRASHED => "CRASHED"
  | MISSING => "MISSING" | UNKNOWN => "UNKNOWN"
  end.

(** [d[key]]: [KeyError] without the key, its text the [repr] of the key. *)
Definition dict_getitem {V} (d : gmap JobStatus V) (key : JobStatus) : outcome V :=
  match d !! key with
  | Some v => Ret v
  | None => Raise (Exception "KeyError"
                     ("<JobStatus." +:+ JobStatus_value key +:+ ": '"
                      +:+ JobStatus_value key +:+ "'>"))
  end.

(** [d.get(key, default)] *)
Definition dict_get {V} (d : gmap JobStatus V) (key : JobStatus) (default : V) : V :=
  match d !! key with
  | Some v => v
  | None => default
  end.

(** [l[i]]: a negative index counts from the end; [IndexError] outside. *)
Definition list_getitem {A} (l : list A) (i : Z) : outcome A :=
  let n := Z.of_nat (length l) in
  let j := if i <? 0 then i + n else i in
  match (if (0 <=? j) && (j <? n) then l !! Z.to_nat j else None) with
  | Some x => Ret x
  | None => Raise (Exception "IndexError" "list index out of range")
  end.

(** What [json.load] returns: [None], [bool], [int], [float], [str],
    [list], and [dict] with its members in insertion order. *)
#[warnings="-register-all"] Inductive json :=
| JNull
| JBool (b : bool)
| JInt (z : Z)
| JFloat (literal : string)
| JString (s : string)
| JArray (items : list json)
| JObject (members : list (string * json)).

(** [type(v).__name__] *)
Definition type_name (v : json) : string :=
  match v with
  | JNull => "NoneType" | JBool _ => "bool" | JInt _ => "int"
  | JFloat _ => "float" | JString _ => "str" | JArray _ => "list"
  | JObject _ => "dict"
  end.

(** The member of a [dict] under a key. *)
Fixpoint members_get (members : list (string * json)) (key : string) : option json :=
  match members with
  | [] => None
  | (k, v) :: rest => if decide (k = key) then Some v else members_get rest key
  end.

(** [data.get(key, default)]: only a [dict] has the method. *)
Definition json_get (data : json) (key : string) (default : json) : outcome json :=
  match data with
  | JObject members => Ret (match members_get members key with
                            | Some v => v
                            | None => default
                            end)
  | _ => Raise (Exception "AttributeError"
                  ("'" +:+ type_name data +:+ "' object has no attribute 'get'"))
  end.

(** The characters of a [str] held as UTF-8: a byte that is no continuation
    byte starts a character. *)
Definition is_continuation (c : Ascii.ascii) : bool :=
  let n := Ascii.N_of_ascii c in ((128 <=? n) && (n <? 192))%N.

Fixpoint characters_from (current : string) (s : string) : list string :=
  match s with
  | EmptyString => [current]
  | String c s' =>
      if is_continuation c then characters_from (current +:+ String c EmptyString) s'
      else current :: characters_from (String c EmptyString) s'
  end.

Definition characters (s : string) : list string :=
  match s with
  | EmptyString => []
  | String c s' => characters_from (String c EmptyString) s'
  end.

(** [for item in v]: the items of a list, the characters of a string, the
    keys of a dictionary; [TypeError] for the rest. *)
Definition json_iter (v : json) : outcome (list json) :=
  match v with
  | JArray items => Ret items
  | JString s => Ret (JString <$> characters s)
  | JObject members => Ret ((λ kv, JString kv.1) <$> members)
  | _ => Raise (Exception "TypeError"
                  ("'" +:+ type_name v +:+ "' object is not iterable"))
  end.

(** [[f(x) for x in items]]: in order, up to the first exception. *)
Fixpoint comprehension {A B} (f : A → outcome B) (items : list A) : outcome (list B) :=
  match items with
  | [] => Ret []
  | x :: rest =>
      match f x with
      | Ret y => match comprehension f rest with
                 | Ret ys => Ret (y :: ys)
                 | Raise e => Raise e
                 end
      | Raise e => Raise e
      end
  end.

(** What the installation and the libraries fix: where [jobs.json] lies
    beside the module, the parser of [json.load] (decoding included), the
    call of [Job] with the members of [job] as keyword arguments, validated
    by pydantic ([TypeError] when [job] is no mapping), and [strftime]. *)
Record Runtime := mk_Runtime {
  JOBS_FILE : string;
  json_loads : list byte → outcome json;
  Job_kwargs : json → outcome Job;
  strftime : datetime → string → string
}.

(** *** The monad of the command line: the calls of [core.py], and output *)

Record Text := mk_Text { plain : string; style : string }.

(** A [rich] table: title, columns with their style, rows. *)
Record Table := mk_Table {
  title : string;
  box : string;
  columns : list (string * option string);
  rows : list (string * Text * string * string)
}.

Inductive renderable :=
| Markup (markup : string)
| Panel (body panel_title border_style : string)
| TableR (table : Table).

Inductive app_event :=
| Os (ev : event)
| Stdout (line : string)
| Console (r : renderable).

Definition App (A : Type) : Type := World → list app_event * outcome A.

Definition App_ret {A} (a : A) : App A := λ _, ([], Ret a).

Definition App_bind {A B} (f : A → App B) (m : App A) : App B :=
  λ w, match m w with
       | (t, Ret a) => let '(t', r) := f a w in (t ++ t', r)
       | (t, Raise e) => (t, Raise e)
       end.

Global Instance App_MRet : MRet App := @App_ret.
Global Instance App_MBind : MBind App := @App_bind.

Definition App_try_except {A} (body : App A) (handler : exn → App A) : App A :=
  λ w, match body w with
       | (t, Ret a) => (t, Ret a)
       | (t, Raise e) => let '(t', r) := handler e w in (t ++ t', r)
       end.

(** A computation of [core.py] inside the command line. *)
Definition liftIO {A} (m : IO A) : App A :=
  λ w, let '(t, r) := m w in (Os <$> t, r).

(** A value or an exception that asked nothing of the system. *)
Definition App_of_outcome {A} (r : outcome A) : App A := λ _, ([], r).
Definition IO_of_outcome {A} (r : outcome A) : IO A := λ _, ([], r).

(** [print(line)] *)
Definition print (line : string) : App unit := λ _, ([Stdout line], Ret ()).

(** [console.print(r)] *)
Definition console_print (r : renderable) : App unit := λ _, ([Console r], Ret ()).

(** [open(path, "r")] followed by [json.load]: the bytes as they are. *)
Definition open_raw (path : string) : IO (list byte) :=
  ask (EvRead path) (λ w, read_bytes w path).

(** *** core.py: loading the jobs *)

Definition load_jobs (rt : Runtime) : App (list Job) :=
  App_try_except
    (bs ← liftIO (open_raw (JOBS_FILE rt));
     data ← App_of_outcome (json_loads rt bs);
     jobs_value ← App_of_outcome (json_get data "jobs" (JArray []));
     items ← App_of_outcome (json_iter jobs_value);
     App_of_outcome (comprehension (Job_kwargs rt) items))
    (λ e, _ ← print ("Error loading jobs: " +:+ exn_str e); mret []).

(** *** cli.py *)

Definition JOB_STATUS_STYLES : gmap JobStatus (string * string) :=
  {[ RUNNING := ("â³", "cyan bold");
     MISSING := ("âšª", "red");
     STALE := ("ğŸŸ¡", "yellow bold");
     FAILED := ("ğŸ”´", "red bold");
     SUCCESS := ("ğŸŸ¢", "green bold");
     CRASHED := ("ğŸ”´", "red bold");
     UNKNOWN := ("â“", "red") ]}.

Definition _get_status_display (status : JobStatus) : outcome Text :=
  match dict_getitem JOB_STATUS_STYLES UNKNOWN with
  | Raise e => Raise e
  | Ret fallback =>
      let '(icon, sty) := dict_get JOB_STATUS_STYLES status fallback in
      Ret (mk_Text (icon +:+ " " +:+ JobStatus_value status) sty)
  end.

(** [bool(state)]: a pydantic model defines neither [__bool__] nor
    [__len__], so every state is truthy. *)
Definition JobState_truthy (state : JobState) : bool := true.

Definition check_job (job : Job) : IO (Text * string) :=
  state ← get_job_state job;
  if negb (JobState_truthy state) then
    display ← IO_of_outcome (_get_status_display UNKNOWN);
    mret (display, "Could not determine job state")
  else
    display ← IO_of_outcome (_get_status_display (status state));
    mret (display, message state).

Definition newline : string := String (Ascii.ascii_of_nat 10) EmptyString.

(** [subprocess.call(args)], on the terminal. *)
Definition subprocess_call_tty (args : list string) : IO Z :=
  ask (EvSubprocess args) (λ w, subprocess_call w args).

Definition view_log (job : Job) : App unit :=
  state ← liftIO (get_job_state job);
  match file state with
  | None | Some EmptyString =>
      console_print
        (Markup ("[red]No log file found for [bold]" +:+ name job +:+ "[/bold][/red]"))
  | Some path =>
      _ ← console_print
            (Panel ("[bold cyan]" +:+ name job +:+ "[/bold cyan]" +:+ newline
                    +:+ "[dim]" +:+ path +:+ "[/dim]")
                   "Viewing log" "cyan");
      _ ← liftIO (subprocess_call_tty ["less"; "+G"; path]);
      mret ()
  end.

(** The loop of [main] over [enumerate(jobs, i)]: one row per job. *)
Fixpoint table_rows (i : Z) (jobs : list Job) : IO (list (string * Text * string * string)) :=
  match jobs with
  | [] => mret []
  | job :: rest =>
      checked ← check_job job;
      rows ← table_rows (i + 1) rest;
      mret ((pretty i, checked.1, name job, checked.2) :: rows)
  end.

(** The branch of [main] without an [id]: the table of all jobs. *)
Definition print_status_table (jobs : list Job) : App unit :=
  rows ← liftIO (table_rows 1 jobs);
  console_print
    (TableR (mk_Table "Cron job status" "ROUNDED"
               [("#", Some "dim"); ("Status", None);
                ("Job name", Some "bold white"); ("Details", Some "dim")]
               rows)).

(** [main], from the [id] that [parse_args] read ([None] without one);
    [if args.id] takes [0] for absent. *)
Definition main (rt : Runtime) (args_id : option Z) : App unit :=
  jobs ← load_jobs rt;
  match args_id with
  | Some id =>
      if negb (id =? 0) then
        job ← App_of_outcome (list_getitem jobs (id - 1));
        view_log job
      else print_status_table jobs
  | None => print_status_table jobs
  end.

(** *** tray_app.py *)

Definition TRAY_ICON_SUCCESS : string := "emblem-default".
Definition TRAY_ICON_WARN : string := "emblem-synchronizing".
Definition TRAY_ICON_FAIL : string := "emblem-important".

Definition JOB_STATUS_ICONS : gmap JobStatus string :=
  {[ SUCCESS := "🟢";
     RUNNING := "⏳";
     STALE := "🟡";
     FAILED := "🔴";
     CRASHED := "🔴";
     MISSING := "⚪";
     UNKNOWN := "⚪";
     ERROR := "⚪" ]}.

Definition FAIL_STATUSES : gset JobStatus := {[ FAILED; CRASHED; ERROR ]}.
Definition WARN_STATUSES : gset JobStatus := {[ STALE; MISSING; UNKNOWN ]}.

(** [groups.setdefault(job.frequency, []).append(job)] on a dictionary
    held in insertion order. *)
Fixpoint setdefault_append (groups : list (JobFrequency * list Job)) (job : Job)
    : list (JobFrequency * list Job) :=
  match groups with
  | [] => [(frequency job, [job])]
  | (key, members) :: rest =>
      if decide (key = frequency job) then (key, members ++ [job]) :: rest
      else (key, members) :: setdefault_append rest job
  end.

Definition _group_jobs_by_frequency (jobs : list Job) : list (JobFrequency * list Job) :=
  foldl setdefault_append [] jobs.

Definition _get_global_app_status (statuses : list JobStatus) : string * string :=
  if existsb (λ status, bool_decide (status ∈ FAIL_STATUSES)) statuses then
    (TRAY_ICON_FAIL, "Job failure detected")
  else if existsb (λ status, bool_decide (status ∈ WARN_STATUSES)) statuses then
    (TRAY_ICON_WARN, "Warnings present")
  else (TRAY_ICON_SUCCESS, "All systems operational").

(** What a [JobRow] shows: the label of its item, and in its submenu the
    message, the time and whether the time and the "Open log file" items
    are visible. *)
Record JobRow := mk_JobRow {
  row_job : Job;
  root_label : string;
  message_label : string;
  time_label : string;
  time_visible : bool;
  log_visible : bool
}.

(** [JobRow.update]: the row after the call and the status returned. *)
Definition JobRow_update (rt : Runtime) (self : JobRow) (state : JobState)
    : outcome (JobRow * JobStatus) :=
  match dict_getitem JOB_STATUS_ICONS UNKNOWN with
  | Raise e => Raise e
  | Ret fallback =>
      let icon := dict_get JOB_STATUS_ICONS (status state) fallback in
      Ret (mk_JobRow
             (row_job self)
             (icon +:+ " " +:+ name (row_job self))
             ("Status: " +:+ message state)
             match last_modification_time state with
             | Some t => "Last run: " +:+ strftime rt t "%d-%m-%Y %H:%M"
             | None => time_label self
             end
             match last_modification_time state with
             | Some _ => true
             | None => false
             end
             match file state with
             | None | Some EmptyString => false
             | Some _ => true
             end,
           status state)
  end.

(** The icon of the tray and its description. *)
Record TrayController := mk_TrayController {
  icon_name : string;
  icon_description : string
}.

Record CronMonitorApp := mk_CronMonitorApp {
  tray : option TrayController;
  jobs : list Job;
  job_rows : list JobRow
}.

(** The comprehension of [refresh_jobs]: the rows are updated in place, one
    after the other; an exception leaves the rows before it updated. *)
Fixpoint update_rows (rt : Runtime) (rows : list JobRow) (w : World)
    : list event * (list JobRow * outcome (list JobStatus)) :=
  match rows with
  | [] => ([], ([], Ret []))
  | row :: rest =>
      match get_job_state (row_job row) w with
      | (t, Raise e) => (t, (row :: rest, Raise e))
      | (t, Ret state) =>
          match JobRow_update rt row state with
          | Raise e => (t, (row :: rest, Raise e))
          | Ret (row', current) =>
              let '(t', (rest', r)) := update_rows rt rest w in
              (t ++ t',
               (row' :: rest',
                match r with
                | Ret statuses => Ret (current :: statuses)
                | Raise e => Raise e
                end))
          end
      end
  end.

Definition refresh_jobs (rt : Runtime) (self : CronMonitorApp) (w : World)
    : list event * (CronMonitorApp * outcome unit) :=
  match tray self with
  | None => ([], (self, Ret ()))
  | Some _ =>
      let '(t, (rows', r)) := update_rows rt (job_rows self) w in
      match r with
      | Raise e => (t, (mk_CronMonitorApp (tray self) (jobs self) rows', Raise e))
      | Ret current_statuses =>
          let '(global_icon, global_description) :=
            _get_global_app_status current_statuses in
          (t, (mk_CronMonitorApp
                 (Some (mk_TrayController global_icon global_description))
                 (jobs self) rows',
               Ret ()))
      end
  end.

(** ** Sample machines and jobs

    [sample_world]: the home of the caller is [/home/ops]; no process matches;
    two backups exist, the second one newer; the first holds all three
    markers, the second a start marker, a byte that is not UTF-8 and a
    success marker; the clock shows the afternoon of 2026-02-01 and every
    file was written on 2026-01-31. *)

Definition sample_logs : list string :=
  ["/home/ops/logs/backup-1.log"; "/home/ops/logs/backup-2.log"].

Definition sample_world : World :=
  {| environ_HOME := Some "/home/ops";
     pw_dir_self := Some "/home/ops";
     pw_dir := λ _, None;
     subprocess_call := λ _, Ret 1;
     glob_glob := λ p, if bool_decide (p = "/home/ops/logs/backup-*.log")
                       then sample_logs else [];
     getmtime := λ p, if bool_decide (p = "/home/ops/logs/backup-1.log") then Ret 100
                      else if bool_decide (p = "/home/ops/logs/backup-2.log") then Ret 200
                      else Raise (Exception "FileNotFoundError"
                                    "[Errno 2] No such file or directory");
     fromtimestamp := λ t, Ret (mk_datetime 2026 1 31 12 0 0 0);
     clock := mk_datetime 2026 2 1 15 0 0 0;
     read_bytes := λ p, if bool_decide (p = "/home/ops/logs/backup-1.log")
                        then Ret (UTF8.bytes "[JOB STARTED][JOB SUCCEEDED][JOB FAILED]")
                        else if bool_decide (p = "/home/ops/logs/backup-2.log")
                        then Ret (UTF8.bytes "[JOB STARTED]" ++ [xff]
                                    ++ UTF8.bytes "[JOB SUCCEEDED]")
                        else Raise (Exception "FileNotFoundError"
                                      "[Errno 2] No such file or directory");
     decode_replace := UTF8.decode |}.

(** The same machine with every file written at noon of the day the clock
    shows. *)
Definition fresh_world : World :=
  {| environ_HOME := environ_HOME sample_world;
     pw_dir_self := pw_dir_self sample_world;
     pw_dir := pw_dir sample_world;
     subprocess_call := subprocess_call sample_world;
     glob_glob := glob_glob sample_world;
     getmtime := getmtime sample_world;
     fromtimestamp := λ t, Ret (mk_datetime 2026 2 1 12 0 0 0);
     clock := clock sample_world;
     read_bytes := read_bytes sample_world;
     decode_replace := decode_replace sample_world |}.

(** The same machine where the log patterns match a link to a file that
    is gone. *)
Definition dangling_world : World :=
  {| environ_HOME := environ_HOME sample_world;
     pw_dir_self := pw_dir_self sample_world;
     pw_dir := pw_dir sample_world;
     subprocess_call := subprocess_call sample_world;
     glob_glob := λ _, ["/home/ops/logs/latest.log"];
     getmtime := getmtime sample_world;
     fromtimestamp := fromtimestamp sample_world;
     clock := clock sample_world;
     read_bytes := read_bytes sample_world;
     decode_replace := decode_replace sample_world |}.

(** The same machine while a process matches every pattern. *)
Definition busy_world : World :=
  {| environ_HOME := environ_HOME sample_world;
     pw_dir_self := pw_dir_self sample_world;
     pw_dir := pw_dir sample_world;
     subprocess_call := λ _, Ret 0;
     glob_glob := glob_glob sample_world;
     getmtime := getmtime sample_world;
     fromtimestamp := fromtimestamp sample_world;
     clock := clock sample_world;
     read_bytes := read_bytes sample_world;
     decode_replace := decode_replace sample_world |}.

(** The machine with the link to a file that is gone, while a process
    matches every pattern. *)
Definition busy_dangling_world : World :=
  {| environ_HOME := environ_HOME sample_world;
     pw_dir_self := pw_dir_self sample_world;
     pw_dir := pw_dir sample_world;
     subprocess_call := subprocess_call busy_world;
     glob_glob := glob_glob dangling_world;
     getmtime := getmtime sample_world;
     fromtimestamp := fromtimestamp sample_world;
     clock := clock sample_world;
     read_bytes := read_bytes sample_world;
     decode_replace := decode_replace sample_world |}.

(** The same machine without [pgrep] on the path. *)
Definition no_pgrep_world : World :=
  {| environ_HOME := environ_HOME sample_world;
     pw_dir_self := pw_dir_self sample_world;
     pw_dir := pw_dir sample_world;
     subprocess_call :=
       λ _, Raise (Exception "FileNotFoundError"
                     "[Errno 2] No such file or directory: 'pgrep'");
     glob_glob := glob_glob sample_world;
     getmtime := getmtime sample_world;
     fromtimestamp := fromtimestamp sample_world;
     clock := clock sample_world;
     read_bytes := read_bytes sample_world;
     decode_replace := decode_replace sample_world |}.

Definition backup_job : Job :=
  mk_Job "Daily Backup" DAILY "~/logs/backup-*.log" "backup_script.py".

Definition report_job : Job :=
  mk_Job "Weekly Report" WEEKLY "~/logs/report-*.log" "generate_report".

(** ** A sample installation

    [jobs.json] lies in [/opt/monitor]; the parser knows four contents: one
    with the two sample jobs, one whose second record lacks its patterns,
    an object without members and a list. *)

Definition job_record (job : Job) : json :=
  JObject [("name", JString (name job));
           ("frequency", JString (JobFrequency_value (frequency job)));
           ("log_pattern", JString (log_pattern job));
           ("process_pattern", JString (process_pattern job))].

Definition sample_config : json :=
  JObject [("jobs", JArray [job_record backup_job; job_record report_job])].

Definition incomplete_config : json :=
  JObject [("jobs", JArray [job_record backup_job;
                            JObject [("name", JString "Incomplete Job");
                                     ("frequency", JString "daily")]])].

Global Instance byte_eq_dec : EqDecision byte := Byte.byte_eq_dec.

Definition sample_config_bytes : list byte := UTF8.bytes "two jobs".
Definition incomplete_config_bytes : list byte := UTF8.bytes "one job and a half".
Definition empty_object_bytes : list byte := UTF8.bytes "{}".
Definition empty_list_bytes : list byte := UTF8.bytes "[]".

(** A validation in the manner of pydantic: four string members, the
    frequency among the three values. *)
Definition sample_Job_kwargs (v : json) : outcome Job :=
  match v with
  | JObject members =>
      match members_get members "name", members_get members "frequency",
            members_get members "log_pattern", members_get members "process_pattern" with
      | Some (JString n), Some (JString f), Some (JString l), Some (JString p) =>
          if decide (f = "daily") then Ret (mk_Job n DAILY l p)
          else if decide (f = "weekly") then Ret (mk_Job n WEEKLY l p)
          else if decide (f = "monthly") then Ret (mk_Job n MONTHLY l p)
          else Raise (Exception "ValidationError" "1 validation error for Job")
      | _, _, _, _ => Raise (Exception "ValidationError" "validation errors for Job")
      end
  | _ => Raise (Exception "TypeError" "argument after ** must be a mapping")
  end.

Definition sample_runtime : Runtime :=
  {| JOBS_FILE := "/opt/monitor/jobs.json";
     json_loads := λ bs,
       if decide (bs = sample_config_bytes) then Ret sample_config
       else if decide (bs = incomplete_config_bytes) then Ret incomplete_config
       else if decide (bs = empty_object_bytes) then Ret (JObject [])
       else if decide (bs = empty_list_bytes) then Ret (JArray [])
       else Raise (Exception "JSONDecodeError" "Expecting value: line 1 column 1 (char 0)");
     Job_kwargs := sample_Job_kwargs;
     strftime := λ t _, pretty (day t) +:+ "-" +:+ pretty (month t) +:+ "-" +:+ pretty (year t) |}.

(** [sample_world] with a [jobs.json] of the given content. *)
Definition installed (content : list byte) (w : World) : World :=
  {| environ_HOME := environ_HOME w;
     pw_dir_self := pw_dir_self w;
     pw_dir := pw_dir w;
     subprocess_call := subprocess_call w;
     glob_glob := glob_glob w;
     getmtime := getmtime w;
     fromtimestamp := fromtimestamp w;
     clock := clock w;
     read_bytes := λ p, if decide (p = "/opt/monitor/jobs.json") then Ret content
                        else read_bytes w p;
     decode_replace := decode_replace w |}.

(** The pipeline of [load_jobs] on the bytes of the file. *)
Definition jobs_of_bytes (rt : Runtime) (bs : list byte) : outcome (list Job) :=
  match json_loads rt bs with
  | Raise e => Raise e
  | Ret data =>
      match json_get data "jobs" (JArray []) with
      | Raise e => Raise e
      | Ret jobs_value =>
          match json_iter jobs_value with
          | Raise e => Raise e
          | Ret items => comprehension (Job_kwargs rt) items
          end
      end
  end.

(** The line [load_jobs] prints for an exception. *)
Definition loading_error (e : exn) : app_event :=
  Stdout ("Error loading jobs: " +:+ exn_str e).

(** A call with [**] raises unless its argument is a mapping. *)
Definition kwargs_need_mapping (rt : Runtime) : Prop :=
  ∀ v, (∀ members, v ≠ JObject members) → ∃ e, Job_kwargs rt v = Raise e.

(** ** The vocabulary of the statements *)

(** The command line of the probe. *)
Definition pgrep_args (pattern : string) : list string := ["pgrep"; "-f"; pattern].

(** [needle] occurs somewhere in [hay]. *)
Definition occurs (needle hay : text) : Prop :=
  ∃ before after, hay = before ++ needle ++ after.

(** Every entry of [files] has a modification time. *)
Definition all_stat (w : World) (files : list string) : Prop :=
  ∀ q, q ∈ files → ∃ tq, getmtime w q = Ret tq.

(** [p] is an entry of [files] and no entry is newer. *)
Definition latest_of (w : World) (files : list string) (p : string) : Prop :=
  p ∈ files ∧
  ∃ t, getmtime w p = Ret t ∧
       ∀ q tq, q ∈ files → getmtime w q = Ret tq → tq ≤ t.

(** The pattern the locator hands to [glob]. *)
Definition expanded (w : World) (job : Job) : string :=
  PosixPath.expanduser w (log_pattern job).

(** The entries that match the pattern of the job. *)
Definition matching (w : World) (job : Job) : list string :=
  glob_glob w (expanded w job).

(** The home directory of the caller: [$HOME], or else the password
    database entry of the current user. *)
Definition caller_home (w : World) : option string :=
  match environ_HOME w with
  | Some h => Some h
  | None => pw_dir_self w
  end.

Definition is_read (ev : event) : Prop := ∃ p, ev = EvRead p.

Definition year_length (y : Z) : Z := if Calendar.is_leap y then 366 else 365.

(** The ISO year and the ISO week of a day: [isocalendar()[:2]]. *)
Definition iso_year (d : datetime) : Z := (Calendar.isocalendar d).1.1.
Definition iso_week (d : datetime) : Z := (Calendar.isocalendar d).1.2.
Definition iso_weekday (d : datetime) : Z := (Calendar.isocalendar d).2.

(** The number of the Monday-to-Sunday week a day lies in, counted from
    the week of 0001-01-01, which is a Monday. *)
Definition week_index (d : datetime) : Z := (Calendar.toordinal d - 1) / 7.

(** The message that goes with a status; the message of ERROR is the text
    of the exception. *)
Definition status_message (s : JobStatus) : option string :=
  match s with
  | RUNNING => Some "Process active"
  | MISSING => Some "No logs found"
  | STALE => Some "Pending"
  | FAILED => Some "Failed"
  | SUCCESS => Some "Finished"
  | CRASHED => Some "Crashed"
  | UNKNOWN => Some "Unknown log format"
  | ERROR => None
  end.

(** The statuses of a state that carries a modification time. *)
Definition timed_statuses : list JobStatus := [STALE; SUCCESS; FAILED; CRASHED; UNKNOWN].

(** The last run lies in the window that the frequency gives around [now]. *)
Definition fresh_for (w : World) (f : JobFrequency) (last_run now : datetime) : Prop :=
  result (is_execution_within_current_interval
            last_run (JobFrequency_value f) (Some now) w) = Ret true.

(** What [view_log] prints without a log, and before it opens one. *)
Definition no_log_message (job : Job) : renderable :=
  Markup ("[red]No log file found for [bold]" +:+ name job +:+ "[/bold][/red]").

Definition viewing_panel (job : Job) (path : string) : renderable :=
  Panel ("[bold cyan]" +:+ name job +:+ "[/bold cyan]" +:+ newline
         +:+ "[dim]" +:+ path +:+ "[/dim]")
        "Viewing log" "cyan".

(** The pager on a file. *)
Definition less_args (path : string) : list string := ["less"; "+G"; path].

(** The table of [main] with the given rows. *)
Definition status_table (rows : list (string * Text * string * string)) : renderable :=
  TableR (mk_Table "Cron job status" "ROUNDED"
            [("#", Some "dim"); ("Status", None);
             ("Job name", Some "bold white"); ("Details", Some "dim")]
            rows).

(** The row of the table for a job in a state, under a number. *)
Definition row_of (number : Z) (job : Job) (st : JobState) (display : Text)
    : string * Text * string * string :=
  (pretty number, display, name job, message st).

(** [rows] are the rows of [jobs], numbered from [k]: each the row of the
    state the resolver returns for its job. *)
Fixpoint rows_for (w : World) (k : Z) (jobs : list Job)
    (rows : list (string * Text * string * string)) : Prop :=
  match jobs, rows with
  | [], [] => True
  | job :: jobs', row :: rows' =>
      (∃ t st display,
         get_job_state job w = (t, Ret st) ∧
         _get_status_display (status st) = Ret display ∧
         row = row_of k job st display) ∧
      rows_for w (k + 1) jobs' rows'
  | _, _ => False
  end.

(** What the resolver asks for the jobs of a list, one after the other. *)
Definition traces_of (w : World) (jobs : list Job) : list event :=
  concat ((λ job, trace (get_job_state job w)) <$> jobs).

(** The statuses that count as a failure, and as a warning, in the tray. *)
Definition failing (s : JobStatus) : Prop := s = FAILED ∨ s = CRASHED ∨ s = ERROR.
Definition warning (s : JobStatus) : Prop := s = STALE ∨ s = MISSING ∨ s = UNKNOWN.
Definition healthy (s : JobStatus) : Prop := s = SUCCESS ∨ s = RUNNING.

(** The icon [_get_global_app_status] chooses. *)
Definition global_icon (statuses : list JobStatus) : string :=
  (_get_global_app_status statuses).1.

(** The members a dictionary of groups holds under a key. *)
Fixpoint group_lookup (groups : list (JobFrequency * list Job)) (f : JobFrequency)
    : list Job :=
  match groups with
  | [] => []
  | (key, members) :: rest => if decide (key = f) then members else group_lookup rest f
  end.

(** The elements of a list without repetition, in the order they first
    occur. *)
Definition first_occurrences {A} `{EqDecision A} (l : list A) : list A :=
  foldl (λ seen x, if decide (x ∈ seen) then seen else seen ++ [x]) [] l.

(** [rows'] and [statuses] are what updating each of [rows] with the
    state of its job gives. *)
Fixpoint refreshed (rt : Runtime) (w : World)
    (rows rows' : list JobRow) (statuses : list JobStatus) : Prop :=
  match rows, rows', statuses with
  | [], [], [] => True
  | row :: rows1, row' :: rows1', s :: statuses1 =>
      (∃ t st, get_job_state (row_job row) w = (t, Ret st) ∧
               JobRow_update rt row st = Ret (row', s)) ∧
      refreshed rt w rows1 rows1' statuses1
  | _, _, _ => False
  end.

(** * Properties *)

(** ** Running computations *)

Section Running.
Context {A B : Type}.

Lemma run_ret (a : A) (w : World) : (mret a : IO A) w = ([], Ret a).
Proof. reflexivity. Qed.

Lemma run_bind_ret (m : IO A) (f : A → IO B) (w : World) t a :
  m w = (t, Ret a) → (m ≫= f) w = (t ++ (f a w).1, (f a w).2).
Proof.
  intros Hm. unfold mbind, IO_MBind, IO_bind. rewrite Hm.
  by destruct (f a w).
Qed.

Lemma run_bind_raise (m : IO A) (f : A → IO B) (w : World) t e :
  m w = (t, Raise e) → (m ≫= f) w = (t, Raise e).
Proof. intros Hm. unfold mbind, IO_MBind, IO_bind. by rewrite Hm. Qed.

(** A computation that returned was made of parts that returned. *)
Lemma run_bind_inv (m : IO A) (f : A → IO B) (w : World) t b :
  (m ≫= f) w = (t, Ret b) →
  ∃ t1 a t2, m w = (t1, Ret a) ∧ f a w = (t2, Ret b) ∧ t = t1 ++ t2.
Proof.
  unfold mbind, IO_MBind, IO_bind.
  destruct (m w) as [t1 [a|e]]; [|discriminate].
  destruct (f a w) as [t2 r] eqn:Hf. intros [= <- ->]. eauto 6.
Qed.
End Running.

(** ** The liveness probe *)

(** The probe asks once, and returns whatever the query did. *)
Lemma is_job_running_query (w : World) (pattern : string) :
  pattern ≠ "" →
  is_job_running (Some pattern) w =
    ([EvSubprocess (pgrep_args pattern)],
     Ret match subprocess_call w (pgrep_args pattern) with
         | Ret rc => rc =? 0
         | Raise _ => false
         end).
Proof.
  intros Hne. destruct pattern as [|c s]; [done|].
  unfold is_job_running, try_except, mbind, IO_MBind, IO_bind,
    subprocess_call_devnull, ask, pgrep_args.
  by destruct (subprocess_call w _).
Qed.

Lemma is_job_running_no_pattern (w : World) (pattern : option string) :
  pattern = None ∨ pattern = Some "" →
  is_job_running pattern w = ([], Ret false).
Proof. by intros [-> | ->]. Qed.

Lemma is_job_running_returns (w : World) (pattern : option string) :
  ∃ t b, is_job_running pattern w = (t, Ret b) ∧
         (∀ ev, ev ∈ t → ∃ p, ev = EvSubprocess (pgrep_args p)).
Proof.
  destruct pattern as [p|].
  - destruct (decide (p = "")) as [->|Hne].
    + exists [], false. split; [done|]. intros ev Hev. by apply elem_of_nil in Hev.
    + eexists _, _. split; [by apply is_job_running_query|].
      intros ev ->%list_elem_of_singleton. eauto.
  - exists [], false. split; [done|]. intros ev Hev. by apply elem_of_nil in Hev.
Qed.

(** C7: the probe always returns a boolean; without a pattern it returns
    false and asks nothing of the system; a query that raises is reported
    as false. *)
Theorem C7_probe_never_raises (w : World) (pattern : option string) :
  (∃ t b, is_job_running pattern w = (t, Ret b)) ∧
  (pattern = None ∨ pattern = Some "" →
   is_job_running pattern w = ([], Ret false)) ∧
  (∀ p e, pattern = Some p → p ≠ "" →
          subprocess_call w (pgrep_args p) = Raise e →
          is_job_running pattern w = ([EvSubprocess (pgrep_args p)], Ret false)).
Proof.
  split; [|split].
  - destruct (is_job_running_returns w pattern) as (t & b & H & _). eauto.
  - apply is_job_running_no_pattern.
  - intros p e -> Hne Hcall. rewrite is_job_running_query by done.
    by rewrite Hcall.
Qed.

Lemma C7_probe_never_raises_witness :
  is_job_running None sample_world = ([], Ret false) ∧
  is_job_running (Some "") sample_world = ([], Ret false) ∧
  is_job_running (Some "backup_script.py") no_pgrep_world
  = ([EvSubprocess (pgrep_args "backup_script.py")], Ret false).
Proof.
  split; [|split].
  - apply (C7_probe_never_raises sample_world None). by left.
  - apply (C7_probe_never_raises sample_world (Some "")). by right.
  - eapply (C7_probe_never_raises no_pgrep_world (Some "backup_script.py"));
      [reflexivity | discriminate | reflexivity].
Defined.

(** ** The frequency windows *)

(** The evaluator reads the clock only when no reference time is given, and
    returns what the strategy of the tag says, or false without a strategy. *)
Lemma is_execution_within_current_interval_run
    (w : World) (last_run : datetime) (tag : string) (current_time : option datetime) :
  is_execution_within_current_interval last_run tag current_time w =
    (match current_time with None => [EvNow] | Some _ => [] end,
     Ret match FREQUENCY_STRATEGIES !! tag with
         | Some check_strategy => check_strategy last_run (default (clock w) current_time)
         | None => false
         end).
Proof.
  unfold is_execution_within_current_interval, mbind, IO_MBind, IO_bind.
  destruct current_time as [now|]; simpl;
    by destruct (FREQUENCY_STRATEGIES !! tag).
Qed.

Lemma FREQUENCY_STRATEGIES_unknown (tag : string) :
  tag ≠ "daily" → tag ≠ "weekly" → tag ≠ "monthly" →
  FREQUENCY_STRATEGIES !! tag = None.
Proof.
  intros Hd Hw Hm. unfold FREQUENCY_STRATEGIES.
  rewrite !lookup_insert_ne by (simpl; congruence).
  apply lookup_singleton_ne. simpl; congruence.
Qed.

(** C8: a tag without a strategy makes the evaluator return false, whatever
    the two times are. *)
Theorem C8_unknown_frequency_is_false
    (w : World) (last_run : datetime) (tag : string) (current_time : option datetime) :
  tag ≠ "daily" → tag ≠ "weekly" → tag ≠ "monthly" →
  result (is_execution_within_current_interval last_run tag current_time w) = Ret false.
Proof.
  intros Hd Hw Hm. rewrite is_execution_within_current_interval_run. simpl.
  by rewrite FREQUENCY_STRATEGIES_unknown.
Qed.

Lemma C8_unknown_frequency_is_false_witness :
  result (is_execution_within_current_interval
            (mk_datetime 2026 2 1 10 0 0 0) "invalid_frequency"
            (Some (mk_datetime 2026 2 1 15 0 0 0)) sample_world) = Ret false.
Proof.
  apply C8_unknown_frequency_is_false; discriminate.
Defined.

(** ** Substrings *)

Lemma startswith_spec (needle hay : text) :
  startswith needle hay = true ↔ ∃ after, hay = needle ++ after.
Proof.
  revert hay. induction needle as [|a needle IH]; intros hay; simpl.
  - split; [eauto|done].
  - destruct hay as [|b hay].
    + split; [done|]. by intros [after Heq].
    + rewrite andb_true_iff, N.eqb_eq, IH. split.
      * intros [-> [after ->]]. by exists after.
      * intros [after [= -> ->]]. eauto.
Qed.

Lemma contains_spec (needle hay : text) :
  contains needle hay = true ↔ occurs needle hay.
Proof.
  unfold occurs. induction hay as [|b hay IH].
  - simpl. rewrite orb_false_r, startswith_spec. split.
    + intros [after Heq]. by exists [], after.
    + intros (before & after & Heq). symmetry in Heq.
      apply app_eq_nil in Heq as [-> Heq]. exists after. by rewrite Heq.
  - cbn [contains]. rewrite orb_true_iff, startswith_spec, IH. split.
    + intros [[after ->] | (before & after & ->)].
      * by exists [], after.
      * by exists (b :: before), after.
    + intros ([|b' before] & after & Heq).
      * left. by exists after.
      * injection Heq as -> ->. right. eauto.
Qed.

Lemma contains_false (needle hay : text) :
  contains needle hay = false ↔ ¬ occurs needle hay.
Proof. rewrite <- contains_spec. by destruct (contains needle hay). Qed.

(** ** The classifier *)

Lemma open_read_run (w : World) (path : string) :
  open_read path w =
    ([EvRead path],
     match read_bytes w path with
     | Ret bs => Ret (decode_replace w bs)
     | Raise e => Raise e
     end).
Proof. reflexivity. Qed.

(** What the classifier does with a content it could read. *)
Lemma _analyze_log_file_read (w : World) (path : string) (mtime : datetime) t content :
  open_read path w = (t, Ret content) →
  _analyze_log_file path mtime w =
    (t, Ret (if contains MARKER_FAILED content then
               mk_JobState FAILED "Failed" (Some path) (Some mtime)
             else if contains MARKER_SUCCESS content then
               mk_JobState SUCCESS "Finished" (Some path) (Some mtime)
             else if contains MARKER_STARTED content then
               mk_JobState CRASHED "Crashed" (Some path) (Some mtime)
             else
               mk_JobState UNKNOWN "Unknown log format" (Some path) (Some mtime))).
Proof.
  intros Hread. unfold _analyze_log_file, try_except.
  erewrite run_bind_ret by exact Hread.
  repeat case_match; simplify_eq/=; by rewrite ?app_nil_r.
Qed.

(** What the classifier does when the read raises. *)
Lemma _analyze_log_file_unreadable (w : World) (path : string) (mtime : datetime) t e :
  open_read path w = (t, Raise e) →
  _analyze_log_file path mtime w =
    (t, Ret (mk_JobState ERROR (exn_str e) (Some path) None)).
Proof.
  intros Hread. unfold _analyze_log_file, try_except.
  erewrite run_bind_raise by exact Hread. simpl. by rewrite app_nil_r.
Qed.

(** C3: the markers are looked for anywhere in the content, the failure
    marker first, then the success marker, then the start marker; each of
    the four answers carries the path and the modification time given. *)
Theorem C3_marker_priority
    (w : World) (path : string) (mtime : datetime) (t : list event) (content : text) :
  open_read path w = (t, Ret content) →
  let returns st := _analyze_log_file path mtime w = (t, Ret st) in
  (occurs MARKER_FAILED content →
   returns (mk_JobState FAILED "Failed" (Some path) (Some mtime))) ∧
  (occurs MARKER_FAILED content → occurs MARKER_SUCCESS content →
   returns (mk_JobState FAILED "Failed" (Some path) (Some mtime))) ∧
  (¬ occurs MARKER_FAILED content → occurs MARKER_SUCCESS content →
   returns (mk_JobState SUCCESS "Finished" (Some path) (Some mtime))) ∧
  (¬ occurs MARKER_FAILED content → ¬ occurs MARKER_SUCCESS content →
   occurs MARKER_STARTED content →
   returns (mk_JobState CRASHED "Crashed" (Some path) (Some mtime))) ∧
  (¬ occurs MARKER_FAILED content → ¬ occurs MARKER_SUCCESS content →
   ¬ occurs MARKER_STARTED content →
   returns (mk_JobState UNKNOWN "Unknown log format" (Some path) (Some mtime))).
Proof.
  intros Hread returns. subst returns. cbv beta.
  rewrite (_analyze_log_file_read _ _ _ _ _ Hread).
  rewrite <- !contains_false, <- !contains_spec.
  repeat split; intros;
    repeat match goal with H : contains _ _ = _ |- _ => rewrite H; clear H end;
    done.
Qed.

Lemma C3_marker_priority_witness :
  _analyze_log_file "/home/ops/logs/backup-1.log" (clock sample_world) sample_world
  = ([EvRead "/home/ops/logs/backup-1.log"],
     Ret (mk_JobState FAILED "Failed" (Some "/home/ops/logs/backup-1.log")
            (Some (clock sample_world)))) ∧
  _analyze_log_file "/home/ops/logs/backup-2.log" (clock sample_world) sample_world
  = ([EvRead "/home/ops/logs/backup-2.log"],
     Ret (mk_JobState SUCCESS "Finished" (Some "/home/ops/logs/backup-2.log")
            (Some (clock sample_world)))).
Proof.
  split.
  - eapply (C3_marker_priority sample_world "/home/ops/logs/backup-1.log");
      [reflexivity | apply contains_spec; vm_compute; reflexivity
       | apply contains_spec; vm_compute; reflexivity].
  - eapply (C3_marker_priority sample_world "/home/ops/logs/backup-2.log");
      [reflexivity | apply contains_false; vm_compute; reflexivity
       | apply contains_spec; vm_compute; reflexivity].
Defined.

(** C6: a read that raises gives ERROR with the text of the exception, the
    path and no modification time; bytes that do not decode are no such
    failure: whatever the bytes are, the decoded text is classified. *)
Theorem C6_unreadable_is_error (w : World) (path : string) (mtime : datetime) :
  (∀ e, read_bytes w path = Raise e →
        _analyze_log_file path mtime w =
          ([EvRead path], Ret (mk_JobState ERROR (exn_str e) (Some path) None))) ∧
  (∀ bs, read_bytes w path = Ret bs →
         ∃ st, _analyze_log_file path mtime w = ([EvRead path], Ret st) ∧
               status st ≠ ERROR ∧
               file st = Some path ∧
               last_modification_time st = Some mtime ∧
               (status st = FAILED ↔ occurs MARKER_FAILED (decode_replace w bs)) ∧
               (status st = UNKNOWN ↔
                  ¬ occurs MARKER_FAILED (decode_replace w bs) ∧
                  ¬ occurs MARKER_SUCCESS (decode_replace w bs) ∧
                  ¬ occurs MARKER_STARTED (decode_replace w bs))).
Proof.
  split.
  - intros e Hread. apply _analyze_log_file_unreadable.
    rewrite open_read_run. by rewrite Hread.
  - intros bs Hread. eexists. split.
    + apply _analyze_log_file_read. rewrite open_read_run. by rewrite Hread.
    + rewrite <- !contains_false, <- !contains_spec.
      repeat case_match; simpl; intuition congruence.
Qed.

Lemma C6_unreadable_is_error_witness :
  _analyze_log_file "/nonexistent/file.log" (clock sample_world) sample_world
  = ([EvRead "/nonexistent/file.log"],
     Ret (mk_JobState ERROR "[Errno 2] No such file or directory"
            (Some "/nonexistent/file.log") None)) ∧
  ∃ st, _analyze_log_file "/home/ops/logs/backup-2.log" (clock sample_world) sample_world
        = ([EvRead "/home/ops/logs/backup-2.log"], Ret st) ∧ status st ≠ ERROR.
Proof.
  split.
  - apply (proj1 (C6_unreadable_is_error sample_world "/nonexistent/file.log"
                    (clock sample_world))
             (Exception "FileNotFoundError" "[Errno 2] No such file or directory")).
    reflexivity.
  - destruct (proj2 (C6_unreadable_is_error sample_world "/home/ops/logs/backup-2.log"
                       (clock sample_world)) _ eq_refl) as (st & Hrun & Hst & _).
    exists st. by split.
Defined.

(** The byte [0xff] of the second sample log decodes to U+FFFD, between
    the two markers. *)
Example sample_log_decodes :
  UTF8.decode (UTF8.bytes "[JOB STARTED]" ++ [xff] ++ UTF8.bytes "[JOB SUCCEEDED]")
  = MARKER_STARTED ++ [UTF8.REPLACEMENT] ++ MARKER_SUCCESS.
Proof. reflexivity. Qed.

(** ** The log-file locator *)

Section Locator.
Variable w : World.

Lemma os_path_getmtime_inv (path : string) t v :
  os_path_getmtime path w = (t, Ret v) → t = [EvStat path] ∧ getmtime w path = Ret v.
Proof. unfold os_path_getmtime, ask. by intros [= <- ->]. Qed.

(** The loop of [max]: the invariant that the running maximum is the
    greatest key seen so far. *)
Lemma max_loop_inv (items : list string) :
  ∀ (maxitem : string) (maxval : timestamp) t r,
    max_loop os_path_getmtime items maxitem maxval w = (t, Ret r) →
    t = EvStat <$> items ∧
    all_stat w items ∧
    ∃ v, maxval ≤ v ∧
         ((r = maxitem ∧ v = maxval) ∨ (r ∈ items ∧ getmtime w r = Ret v)) ∧
         (∀ q tq, q ∈ items → getmtime w q = Ret tq → tq ≤ v).
Proof.
  induction items as [|item rest IH]; intros maxitem maxval t r Hrun.
  - injection Hrun as <- <-. split; [done|]. split.
    + intros q Hq. by apply elem_of_nil in Hq.
    + exists maxval. split; [lia|]. split; [by left|].
      intros q tq Hq. by apply elem_of_nil in Hq.
  - cbn [max_loop] in Hrun.
    apply run_bind_inv in Hrun as (t1 & val & t2 & Hkey & Hrest & ->).
    apply os_path_getmtime_inv in Hkey as [-> Hval].
    destruct (maxval <? val) eqn:Hlt.
    + apply Z.ltb_lt in Hlt.
      apply IH in Hrest as (-> & Hall & v & Hle & Hr & Hmax).
      split; [done|]. split.
      { intros q [->|Hq]%elem_of_cons; eauto. }
      exists v. split; [lia|]. split.
      { right. destruct Hr as [[-> ->]|[Hr Hv]].
        - split; [by left|done].
        - split; [by right|done]. }
      intros q tq [->|Hq]%elem_of_cons Hq'; [|by eapply Hmax].
      rewrite Hval in Hq'. injection Hq' as <-. lia.
    + apply Z.ltb_ge in Hlt.
      apply IH in Hrest as (-> & Hall & v & Hle & Hr & Hmax).
      split; [done|]. split.
      { intros q [->|Hq]%elem_of_cons; eauto. }
      exists v. split; [lia|]. split.
      { destruct Hr as [[-> ->]|[Hr Hv]]; [by left|].
        right. split; [by right|done]. }
      intros q tq [->|Hq]%elem_of_cons Hq'; [|by eapply Hmax].
      rewrite Hval in Hq'. injection Hq' as <-. lia.
Qed.

(** When every entry has a modification time the loop returns. *)
Lemma max_loop_returns (items : list string) :
  all_stat w items →
  ∀ maxitem maxval, ∃ r,
    max_loop os_path_getmtime items maxitem maxval w = (EvStat <$> items, Ret r).
Proof.
  induction items as [|item rest IH]; intros Hall maxitem maxval.
  - by exists maxitem.
  - destruct (Hall item) as [val Hval]; [by left|].
    assert (all_stat w rest) as Hrest by (intros q Hq; apply Hall; by right).
    cbn [max_loop].
    assert (os_path_getmtime item w = ([EvStat item], Ret val)) as Hkey
      by (unfold os_path_getmtime, ask; by rewrite Hval).
    rewrite (run_bind_ret _ _ _ _ _ Hkey).
    destruct (maxval <? val).
    + destruct (IH Hrest item val) as [r ->]. by exists r.
    + destruct (IH Hrest maxitem maxval) as [r ->]. by exists r.
Qed.

Lemma max_key_inv (files : list string) t r :
  max_key files os_path_getmtime w = (t, Ret r) →
  t = EvStat <$> files ∧ all_stat w files ∧ latest_of w files r.
Proof.
  destruct files as [|item rest]; [discriminate|].
  unfold max_key. intros Hrun.
  apply run_bind_inv in Hrun as (t1 & val & t2 & Hkey & Hrest & ->).
  apply os_path_getmtime_inv in Hkey as [-> Hval].
  apply max_loop_inv in Hrest as (-> & Hall & v & Hle & Hr & Hmax).
  split; [done|]. split.
  { intros q [->|Hq]%elem_of_cons; eauto. }
  assert (∀ q tq, q ∈ item :: rest → getmtime w q = Ret tq → tq ≤ v) as Hmax'.
  { intros q tq [->|Hq]%elem_of_cons Hq'; [|by eapply Hmax].
    rewrite Hval in Hq'. injection Hq' as <-. lia. }
  destruct Hr as [[-> ->]|[Hr Hv]].
  - split; [by left|]. eauto.
  - split; [by right|]. eauto.
Qed.

Lemma max_key_returns (files : list string) :
  files ≠ [] → all_stat w files →
  ∃ r, max_key files os_path_getmtime w = (EvStat <$> files, Ret r).
Proof.
  destruct files as [|item rest]; [done|]. intros _ Hall.
  destruct (Hall item) as [val Hval]; [by left|].
  assert (all_stat w rest) as Hrest by (intros q Hq; apply Hall; by right).
  unfold max_key.
  assert (os_path_getmtime item w = ([EvStat item], Ret val)) as Hkey
    by (unfold os_path_getmtime, ask; by rewrite Hval).
  rewrite (run_bind_ret _ _ _ _ _ Hkey).
  destruct (max_loop_returns rest Hrest item val) as [r ->]. by exists r.
Qed.

Lemma get_latest_log_file_none (job : Job) :
  matching w job = [] →
  get_latest_log_file job w = ([EvGlob (expanded w job)], Ret None).
Proof.
  unfold matching, expanded. intros Hnil.
  unfold get_latest_log_file, mbind, IO_MBind, IO_bind, os_path_expanduser, glob, ask.
  simpl. by rewrite Hnil.
Qed.

Lemma get_latest_log_file_some (job : Job) :
  matching w job ≠ [] →
  get_latest_log_file job w =
    let '(t, r) := max_key (matching w job) os_path_getmtime w in
    (EvGlob (expanded w job) :: t,
     match r with Ret p => Ret (Some p) | Raise e => Raise e end).
Proof.
  unfold matching, expanded. intros Hne.
  unfold get_latest_log_file, mbind, IO_MBind, IO_bind, os_path_expanduser, glob, ask.
  simpl. destruct (glob_glob w _) as [|item rest] eqn:Hglob; [done|].
  destruct (max_key _ _ w) as [t [p|e]]; [|done].
  by rewrite app_nil_r.
Qed.

Lemma get_latest_log_file_inv (job : Job) t r :
  get_latest_log_file job w = (t, Ret r) →
  t = EvGlob (expanded w job) :: (EvStat <$> matching w job) ∧
  match r with
  | None => matching w job = []
  | Some p => all_stat w (matching w job) ∧ latest_of w (matching w job) p
  end.
Proof.
  destruct (decide (matching w job = [])) as [Hnil|Hne].
  - rewrite get_latest_log_file_none by done. intros [= <- <-].
    by rewrite Hnil.
  - rewrite get_latest_log_file_some by done.
    destruct (max_key _ _ w) as [t' [p|e]] eqn:Hmax; [|discriminate].
    intros [= <- <-]. apply max_key_inv in Hmax as (-> & Hall & Hlatest). done.
Qed.
(** The locator returns exactly when every matching entry has a
    modification time; otherwise the exception of the first [getmtime] that
    fails propagates. *)
Lemma get_latest_log_file_returns_iff (job : Job) :
  (∃ t r, get_latest_log_file job w = (t, Ret r)) ↔ all_stat w (matching w job).
Proof.
  split.
  - intros (t & r & Hrun). apply get_latest_log_file_inv in Hrun as [_ Hr].
    destruct r as [p|]; [by destruct Hr|].
    rewrite Hr. intros q Hq. by apply elem_of_nil in Hq.
  - intros Hall. destruct (decide (matching w job = [])) as [Hnil|Hne].
    + eexists _, _. by apply get_latest_log_file_none.
    + destruct (max_key_returns _ Hne Hall) as [p Hmax].
      eexists _, (Some p). rewrite get_latest_log_file_some by done.
      by rewrite Hmax.
Qed.
End Locator.

(** ** The home-directory shorthand *)

Lemma substring_all (s : string) : String.substring 0 (String.length s) s = s.
Proof. induction s as [|c s IH]; simpl; [done|]. by rewrite IH. Qed.

Lemma slice_from_1 (c : Ascii.ascii) (s : string) :
  PosixPath.slice_from 1 (String c s) = s.
Proof.
  unfold PosixPath.slice_from. simpl. rewrite Nat.sub_0_r. apply substring_all.
Qed.

Lemma prefix_empty (s : string) : String.prefix "" s = true.
Proof. by destruct s. Qed.

Lemma find_sep_home (rest : string) :
  PosixPath.find_sep ("~/" +:+ rest) = 1%nat.
Proof.
  unfold PosixPath.find_sep. cbn [String.append String.index].
  cbn [String.prefix Ascii.ascii_dec]. simpl. by rewrite prefix_empty.
Qed.

Lemma slice_from_home (rest : string) :
  PosixPath.slice_from 1 ("~/" +:+ rest) = "/" +:+ rest.
Proof. apply slice_from_1. Qed.

Lemma prefix_home (rest : string) : String.prefix "~" ("~/" +:+ rest) = true.
Proof. apply String.prefix_correct. reflexivity. Qed.

(** [~/rest] becomes the home directory, without trailing separators,
    followed by [/rest]. *)
Lemma expanduser_home_slash (w : World) (h rest : string) :
  caller_home w = Some h →
  PosixPath.expanduser w ("~/" +:+ rest) = PosixPath.rstrip_sep h +:+ "/" +:+ rest.
Proof.
  unfold caller_home. intros Hhome.
  unfold PosixPath.expanduser.
  rewrite find_sep_home, slice_from_home, prefix_home. cbn [negb Nat.eqb].
  rewrite Hhome. by destruct (PosixPath.rstrip_sep h).
Qed.

(** A pattern that does not start with a tilde is left alone. *)
Lemma expanduser_no_tilde (w : World) (path : string) :
  String.prefix "~" path = false → PosixPath.expanduser w path = path.
Proof. unfold PosixPath.expanduser. by intros ->. Qed.

(** C9: the locator expands the shorthand for the home of the caller (and
    leaves a pattern without a tilde alone), then asks [glob] with the
    expanded pattern; it returns absent exactly when
    nothing matches; a path it returns is a matching entry that no matching
    entry is newer than; and it does return one when the entries that match
    have modification times. *)
Theorem C9_latest_log_file (w : World) (job : Job) :
  (∀ h rest, caller_home w = Some h → log_pattern job = "~/" +:+ rest →
             expanded w job = PosixPath.rstrip_sep h +:+ "/" +:+ rest) ∧
  (String.prefix "~" (log_pattern job) = false → expanded w job = log_pattern job) ∧
  (∃ t, trace (get_latest_log_file job w) = EvGlob (expanded w job) :: t) ∧
  (matching w job = [] →
   get_latest_log_file job w = ([EvGlob (expanded w job)], Ret None)) ∧
  (result (get_latest_log_file job w) = Ret None → matching w job = []) ∧
  (∀ p, result (get_latest_log_file job w) = Ret (Some p) →
        latest_of w (matching w job) p) ∧
  (matching w job ≠ [] → all_stat w (matching w job) →
   ∃ p, result (get_latest_log_file job w) = Ret (Some p) ∧
        latest_of w (matching w job) p).
Proof.
  split; [|split; [|split; [|split; [|split; [|split]]]]].
  - intros h rest Hhome Hpat. unfold expanded. rewrite Hpat.
    by apply expanduser_home_slash.
  - apply expanduser_no_tilde.
  - destruct (decide (matching w job = [])) as [Hnil|Hne].
    + rewrite get_latest_log_file_none by done. by exists [].
    + rewrite get_latest_log_file_some by done.
      destruct (max_key _ _ w) as [t r]. by exists t.
  - apply get_latest_log_file_none.
  - destruct (get_latest_log_file job w) as [t r] eqn:Hrun. simpl.
    intros ->. by apply get_latest_log_file_inv in Hrun as [_ Hnil].
  - intros p. destruct (get_latest_log_file job w) as [t r] eqn:Hrun. simpl.
    intros ->. by apply get_latest_log_file_inv in Hrun as [_ [_ Hlatest]].
  - intros Hne Hall.
    destruct (max_key_returns w _ Hne Hall) as [p Hmax].
    exists p. rewrite get_latest_log_file_some by done. rewrite Hmax. simpl.
    split; [done|]. by apply max_key_inv in Hmax as (_ & _ & Hlatest).
Qed.

Lemma C9_latest_log_file_witness :
  expanded sample_world backup_job = "/home/ops/logs/backup-*.log" ∧
  result (get_latest_log_file backup_job sample_world)
  = Ret (Some "/home/ops/logs/backup-2.log") ∧
  latest_of sample_world sample_logs "/home/ops/logs/backup-2.log" ∧
  get_latest_log_file report_job sample_world
  = ([EvGlob "/home/ops/logs/report-*.log"], Ret None).
Proof.
  split; [|split; [|split]].
  - apply (proj1 (C9_latest_log_file sample_world backup_job) "/home/ops" "logs/backup-*.log");
      reflexivity.
  - reflexivity.
  - apply (proj1 (proj2 (proj2 (proj2 (proj2 (proj2
             (C9_latest_log_file sample_world backup_job))))))
             "/home/ops/logs/backup-2.log").
    reflexivity.
  - apply (proj1 (proj2 (proj2 (proj2 (C9_latest_log_file sample_world report_job))))).
    reflexivity.
Defined.

(** ** The resolver *)

Section Resolver.
Variables (w : World) (job : Job).

(** The branch of a live process. *)
Lemma get_job_state_running tp tl latest :
  is_job_running (Some (process_pattern job)) w = (tp, Ret true) → get_latest_log_file job w = (tl, Ret latest) →
  get_job_state job w =
    (tp ++ tl, Ret (mk_JobState RUNNING "Process active" latest None)).
Proof.
  intros Hp Hl. unfold get_job_state.
  rewrite (run_bind_ret _ _ _ _ _ Hp). cbv beta iota.
  rewrite (run_bind_ret _ _ _ _ _ Hl). simpl. by rewrite app_nil_r.
Qed.

(** The branch without any log. *)
Lemma get_job_state_missing tp tl :
  is_job_running (Some (process_pattern job)) w = (tp, Ret false) → get_latest_log_file job w = (tl, Ret None) →
  get_job_state job w =
    (tp ++ tl, Ret (mk_JobState MISSING "No logs found" None None)).
Proof.
  intros Hp Hl. unfold get_job_state.
  rewrite (run_bind_ret _ _ _ _ _ Hp). cbv beta iota.
  rewrite (run_bind_ret _ _ _ _ _ Hl). simpl. by rewrite app_nil_r.
Qed.

(** The branch of a log that was found: the window decides between
    STALE and the classifier. *)
Lemma get_job_state_found tp tl path t dt :
  is_job_running (Some (process_pattern job)) w = (tp, Ret false) → get_latest_log_file job w = (tl, Ret (Some path)) → path ≠ "" →
  getmtime w path = Ret t → fromtimestamp w t = Ret dt →
  get_job_state job w =
    match FREQUENCY_STRATEGIES !! JobFrequency_value (frequency job) with
    | Some check_strategy =>
        if (check_strategy dt (clock w) : bool) then
          (tp ++ tl ++ [EvStat path; EvNow] ++ trace (_analyze_log_file path dt w),
           result (_analyze_log_file path dt w))
        else
          (tp ++ tl ++ [EvStat path; EvNow],
           Ret (mk_JobState STALE "Pending" (Some path) (Some dt)))
    | None =>
        (tp ++ tl ++ [EvStat path; EvNow],
         Ret (mk_JobState STALE "Pending" (Some path) (Some dt)))
    end.
Proof.
  intros Hp Hl Hne Hstat Hdt. unfold get_job_state.
  rewrite (run_bind_ret _ _ _ _ _ Hp). cbv beta iota.
  rewrite (run_bind_ret _ _ _ _ _ Hl). cbv beta iota.
  destruct path as [|c s]; [done|].
  assert (os_path_getmtime (String c s) w = ([EvStat (String c s)], Ret t)) as Hkey
    by (unfold os_path_getmtime, ask; by rewrite Hstat).
  rewrite (run_bind_ret _ _ _ _ _ Hkey).
  assert (datetime_fromtimestamp t w = ([], Ret dt)) as Hconv
    by (unfold datetime_fromtimestamp; by rewrite Hdt).
  rewrite (run_bind_ret _ _ _ _ _ Hconv).
  rewrite (run_bind_ret _ _ _ _ _
             (is_execution_within_current_interval_run w dt _ None)).
  cbn [default fst snd app].
  destruct (FREQUENCY_STRATEGIES !! _) as [check|]; cbn [negb fst snd];
    [destruct (check dt (clock w))|]; cbn [negb fst snd app];
    by rewrite ?app_nil_r.
Qed.
End Resolver.

(** A state the classifier returns carries the path it was given. *)
Lemma _analyze_log_file_file (w : World) (path : string) (mtime : datetime) t st :
  _analyze_log_file path mtime w = (t, Ret st) → file st = Some path.
Proof.
  destruct (read_bytes w path) as [bs|e] eqn:Hread.
  - erewrite _analyze_log_file_read
      by (rewrite open_read_run; by rewrite Hread).
    intros [= <- <-]. by repeat case_match.
  - erewrite _analyze_log_file_unreadable
      by (rewrite open_read_run; by rewrite Hread).
    by intros [= <- <-].
Qed.

(** The four ways the resolver returns. *)
Lemma get_job_state_inv (w : World) (job : Job) t st :
  get_job_state job w = (t, Ret st) →
  (∃ tl latest, get_latest_log_file job w = (tl, Ret latest) ∧
                st = mk_JobState RUNNING "Process active" latest None) ∨
  st = mk_JobState MISSING "No logs found" None None ∨
  (∃ path dt, st = mk_JobState STALE "Pending" (Some path) (Some dt)) ∨
  (∃ path dt t', _analyze_log_file path dt w = (t', Ret st)).
Proof.
  unfold get_job_state. intros Hrun.
  apply run_bind_inv in Hrun as (tp & running & t1 & _ & Hrun & ->).
  destruct running.
  - apply run_bind_inv in Hrun as (tl & latest & t2 & Hl & Hret & ->).
    injection Hret as <- <-. left. eauto.
  - apply run_bind_inv in Hrun as (tl & latest & t2 & Hl & Hrun & ->).
    destruct latest as [[|c s]|].
    + injection Hrun as <- <-. by right; left.
    + apply run_bind_inv in Hrun as (ts & mtime & t3 & _ & Hrun & ->).
      apply run_bind_inv in Hrun as (tc & dt & t4 & _ & Hrun & ->).
      apply run_bind_inv in Hrun as (tn & fresh & t5 & _ & Hrun & ->).
      destruct fresh; simpl in Hrun.
      * right; right; right. eauto.
      * injection Hrun as <- <-. right; right; left. eauto.
    + injection Hrun as <- <-. by right; left.
Qed.

(** The spec's "whenever the probe returns true, the resolver returns a
    RUNNING state" fails while a process is alive and the log pattern matches
    a link to a file that is gone: the locator runs before the state is
    built, its [getmtime] raises, and the resolver raises with it. *)
Lemma C1_running_dangling_link :
  is_job_running (Some (process_pattern backup_job)) busy_dangling_world =
    ([EvSubprocess (pgrep_args "backup_script.py")], Ret true) ∧
  get_job_state backup_job busy_dangling_world =
    ([EvSubprocess (pgrep_args "backup_script.py");
      EvGlob "/home/ops/logs/backup-*.log";
      EvStat "/home/ops/logs/latest.log"],
     Raise (Exception "FileNotFoundError" "[Errno 2] No such file or directory")) ∧
  ¬ (∀ (w : World) (job : Job) tp,
       is_job_running (Some (process_pattern job)) w = (tp, Ret true) →
       ∃ t latest,
         get_job_state job w =
           (t, Ret (mk_JobState RUNNING "Process active" latest None))).
Proof.
  split; [reflexivity|]. split; [reflexivity|].
  intros Hclaim.
  destruct (Hclaim busy_dangling_world backup_job _ eq_refl) as (t & latest & Hrun).
  discriminate Hrun.
Qed.

(** C1, amended: while the probe finds a process and the locator returns,
    the resolver returns RUNNING with "Process active", the path the locator
    gave (or none), and no modification time, whatever the logs hold and
    however old they are; it reads no file and no clock on the way. *)
Theorem C1_running_short_circuit
    (w : World) (job : Job) (tp tl : list event) (latest : option string) :
  is_job_running (Some (process_pattern job)) w = (tp, Ret true) →
  get_latest_log_file job w = (tl, Ret latest) →
  get_job_state job w =
    (tp ++ tl, Ret (mk_JobState RUNNING "Process active" latest None)) ∧
  (∀ ev, ev ∈ tp ++ tl → ¬ is_read ev ∧ ev ≠ EvNow).
Proof.
  intros Hp Hl. split; [by apply get_job_state_running|].
  destruct (is_job_running_returns w (Some (process_pattern job)))
    as (tp' & b & Hp' & Hshape).
  rewrite Hp in Hp'. injection Hp' as <- <-.
  apply get_latest_log_file_inv in Hl as [-> _].
  intros ev [Hev|Hev]%elem_of_app.
  - destruct (Hshape ev Hev) as [p ->]. split; [by intros [q Hq]|done].
  - apply elem_of_cons in Hev as [->|Hev]; [split; [by intros [q Hq]|done]|].
    apply list_elem_of_fmap in Hev as (q & -> & _). split; [by intros [q' Hq]|done].
Qed.

Lemma C1_running_short_circuit_witness :
  get_job_state backup_job busy_world =
    ([EvSubprocess (pgrep_args "backup_script.py");
      EvGlob "/home/ops/logs/backup-*.log";
      EvStat "/home/ops/logs/backup-1.log";
      EvStat "/home/ops/logs/backup-2.log"],
     Ret (mk_JobState RUNNING "Process active"
            (Some "/home/ops/logs/backup-2.log") None)).
Proof.
  apply (C1_running_short_circuit busy_world backup_job
           [EvSubprocess (pgrep_args "backup_script.py")]
           [EvGlob "/home/ops/logs/backup-*.log";
            EvStat "/home/ops/logs/backup-1.log";
            EvStat "/home/ops/logs/backup-2.log"]); reflexivity.
Defined.

(** C2: with no live process and a latest log outside the window of the
    job, the resolver returns STALE with "Pending", that path and that
    modification time, whatever the file holds, and never reads it. *)
Theorem C2_stale_before_content
    (w : World) (job : Job) (tp tl : list event) (path : string)
    (t : timestamp) (dt : datetime) :
  is_job_running (Some (process_pattern job)) w = (tp, Ret false) →
  get_latest_log_file job w = (tl, Ret (Some path)) → path ≠ "" →
  getmtime w path = Ret t → fromtimestamp w t = Ret dt →
  result (is_execution_within_current_interval
            dt (JobFrequency_value (frequency job)) None w) = Ret false →
  get_job_state job w =
    (tp ++ tl ++ [EvStat path; EvNow],
     Ret (mk_JobState STALE "Pending" (Some path) (Some dt))) ∧
  (∀ ev, ev ∈ trace (get_job_state job w) → ¬ is_read ev).
Proof.
  intros Hp Hl Hne Hstat Hdt Hwin.
  rewrite is_execution_within_current_interval_run in Hwin. simpl in Hwin.
  assert (get_job_state job w =
            (tp ++ tl ++ [EvStat path; EvNow],
             Ret (mk_JobState STALE "Pending" (Some path) (Some dt)))) as Hrun.
  { rewrite (get_job_state_found w job tp tl path t dt) by done.
    destruct (FREQUENCY_STRATEGIES !! _) as [check|]; [|done].
    injection Hwin as ->. done. }
  split; [done|]. rewrite Hrun. simpl.
  destruct (is_job_running_returns w (Some (process_pattern job)))
    as (tp' & b & Hp' & Hshape).
  rewrite Hp in Hp'. injection Hp' as <- <-.
  apply get_latest_log_file_inv in Hl as [-> _].
  intros ev [Hev|[Hev|Hev]%elem_of_app]%elem_of_app [q ->].
  - by destruct (Hshape _ Hev).
  - apply elem_of_cons in Hev as [?|Hev]; [done|].
    by apply list_elem_of_fmap in Hev as (? & ? & _).
  - repeat (apply elem_of_cons in Hev as [?|Hev]; [done|]).
    by apply elem_of_nil in Hev.
Qed.

Lemma C2_stale_before_content_witness :
  occurs MARKER_SUCCESS
    (UTF8.decode (UTF8.bytes "[JOB STARTED]" ++ [xff] ++ UTF8.bytes "[JOB SUCCEEDED]")) ∧
  get_job_state backup_job sample_world =
    ([EvSubprocess (pgrep_args "backup_script.py");
      EvGlob "/home/ops/logs/backup-*.log";
      EvStat "/home/ops/logs/backup-1.log";
      EvStat "/home/ops/logs/backup-2.log";
      EvStat "/home/ops/logs/backup-2.log"; EvNow],
     Ret (mk_JobState STALE "Pending" (Some "/home/ops/logs/backup-2.log")
            (Some (mk_datetime 2026 1 31 12 0 0 0)))).
Proof.
  split; [apply contains_spec; vm_compute; reflexivity|].
  apply (C2_stale_before_content sample_world backup_job
           [EvSubprocess (pgrep_args "backup_script.py")]
           [EvGlob "/home/ops/logs/backup-*.log";
            EvStat "/home/ops/logs/backup-1.log";
            EvStat "/home/ops/logs/backup-2.log"]
           "/home/ops/logs/backup-2.log" 200 (mk_datetime 2026 1 31 12 0 0 0));
    try reflexivity; discriminate.
Defined.

(** C10: with no live process and nothing matching the pattern, the
    resolver returns MISSING with "No logs found", no path and no time; all
    it asked was the probe and one glob: no stat, no clock, no read. *)
Theorem C10_missing_without_logs (w : World) (job : Job) (tp : list event) :
  is_job_running (Some (process_pattern job)) w = (tp, Ret false) →
  matching w job = [] →
  get_job_state job w =
    (tp ++ [EvGlob (expanded w job)],
     Ret (mk_JobState MISSING "No logs found" None None)) ∧
  (∀ ev, ev ∈ tp ++ [EvGlob (expanded w job)] →
         ev ≠ EvNow ∧ ¬ is_read ev ∧ ∀ p, ev ≠ EvStat p).
Proof.
  intros Hp Hnil. split.
  - apply get_job_state_missing; [done|]. by apply get_latest_log_file_none.
  - destruct (is_job_running_returns w (Some (process_pattern job)))
      as (tp' & b & Hp' & Hshape).
    rewrite Hp in Hp'. injection Hp' as <- <-.
    intros ev [Hev|Hev%list_elem_of_singleton]%elem_of_app.
    + destruct (Hshape ev Hev) as [p ->]. split; [done|]. split; [by intros [q Hq]|done].
    + subst ev. split; [done|]. split; [by intros [q Hq]|done].
Qed.

Lemma C10_missing_without_logs_witness :
  get_job_state report_job sample_world =
    ([EvSubprocess (pgrep_args "generate_report");
      EvGlob "/home/ops/logs/report-*.log"],
     Ret (mk_JobState MISSING "No logs found" None None)).
Proof.
  apply (C10_missing_without_logs sample_world report_job
           [EvSubprocess (pgrep_args "generate_report")]); reflexivity.
Defined.

(** The spec's invariant "the file is absent only when the status is
    MISSING" fails while a process is alive and nothing matches the pattern:
    the state is RUNNING and carries no path. *)
Lemma C5_running_without_file :
  get_job_state report_job busy_world =
    ([EvSubprocess (pgrep_args "generate_report");
      EvGlob "/home/ops/logs/report-*.log"],
     Ret (mk_JobState RUNNING "Process active" None None)) ∧
  ¬ (∀ (w : World) (job : Job) t st,
       get_job_state job w = (t, Ret st) → file st = None → status st = MISSING).
Proof.
  split; [reflexivity|].
  intros Hinv.
  specialize (Hinv busy_world report_job _ _ eq_refl eq_refl).
  discriminate Hinv.
Qed.

(** C5, amended: a state the resolver returns lacks a path only when its
    status is MISSING, or when it is RUNNING and nothing matches the pattern;
    every state of another status carries a path, and MISSING never does. *)
Theorem C5_file_absent_only_missing_or_running
    (w : World) (job : Job) (t : list event) (st : JobState) :
  get_job_state job w = (t, Ret st) →
  (file st = None →
   status st = MISSING ∨ (status st = RUNNING ∧ matching w job = [])) ∧
  (status st ≠ MISSING → status st ≠ RUNNING → ∃ path, file st = Some path) ∧
  (status st = MISSING → file st = None).
Proof.
  intros Hrun.
  apply get_job_state_inv in Hrun
    as [(tl & latest & Hl & ->) | [-> | [(path & dt & ->) | (path & dt & t' & Han)]]].
  - apply get_latest_log_file_inv in Hl as [_ Hlatest]. simpl.
    split; [|split; [done|done]].
    intros ->. by right.
  - simpl. split; [by left|]. split; [done|done].
  - simpl. split; [done|]. split; [eauto|done].
  - pose proof (_analyze_log_file_file _ _ _ _ _ Han) as Hfile.
    rewrite Hfile. split; [done|]. split; [eauto|].
    intros Hst. exfalso. revert Hst.
    destruct (read_bytes w path) as [bs|e] eqn:Hread.
    + erewrite _analyze_log_file_read in Han
        by (rewrite open_read_run; by rewrite Hread).
      injection Han as <- <-. by repeat case_match.
    + erewrite _analyze_log_file_unreadable in Han
        by (rewrite open_read_run; by rewrite Hread).
      by injection Han as <- <-.
Qed.

Lemma C5_file_absent_only_missing_or_running_witness :
  status (mk_JobState RUNNING "Process active" None None) = MISSING ∨
  (status (mk_JobState RUNNING "Process active" None None) = RUNNING ∧
   matching busy_world report_job = []).
Proof.
  apply (proj1 (C5_file_absent_only_missing_or_running busy_world report_job
                  [EvSubprocess (pgrep_args "generate_report");
                   EvGlob "/home/ops/logs/report-*.log"]
                  (mk_JobState RUNNING "Process active" None None) eq_refl)).
  reflexivity.
Defined.

(** ** The calendar *)

Section CalendarFacts.
Import Calendar.

Lemma days_before_year_succ (y : Z) :
  days_before_year (y + 1) = days_before_year y + year_length y.
Proof.
  unfold days_before_year, year_length, is_leap.
  destruct (Z.eqb_spec (y mod 4) 0), (Z.eqb_spec (y mod 100) 0),
    (Z.eqb_spec (y mod 400) 0); cbn [andb orb negb];
    Z.div_mod_to_equations; lia.
Qed.

Lemma year_length_bounds (y : Z) : 365 ≤ year_length y ≤ 366.
Proof. unfold year_length. destruct (is_leap y); lia. Qed.

Lemma first_day (y : Z) : ymd2ord y 1 1 = days_before_year y + 1.
Proof. unfold ymd2ord, days_before_month. simpl. lia. Qed.

(** The ordinals of the days of a year lie between its January 1st and
    the next. *)
Lemma ymd2ord_in_year (y m d : Z) :
  1 ≤ m ≤ 12 → 1 ≤ d ≤ days_in_month y m →
  ymd2ord y 1 1 ≤ ymd2ord y m d < ymd2ord (y + 1) 1 1.
Proof.
  intros Hm Hd. rewrite !first_day, days_before_year_succ.
  unfold ymd2ord, year_length, days_before_month. unfold days_in_month in Hd.
  assert (m = 1 ∨ m = 2 ∨ m = 3 ∨ m = 4 ∨ m = 5 ∨ m = 6 ∨ m = 7 ∨ m = 8 ∨
          m = 9 ∨ m = 10 ∨ m = 11 ∨ m = 12) as Hcases by lia.
  destruct (is_leap y);
    repeat (destruct Hcases as [->|Hcases]); subst; simpl in *; lia.
Qed.

Lemma valid_datetime_date (d : datetime) :
  valid_datetime d = true →
  1 ≤ month d ≤ 12 ∧ 1 ≤ day d ≤ days_in_month (year d) (month d).
Proof.
  unfold valid_datetime. rewrite !andb_true_iff, !Z.leb_le. lia.
Qed.

(** Week 1 starts on a Monday, within three days of January 1st: it is
    the week that holds January 4th, hence the first Thursday. *)
Lemma isoweek1monday_spec (y : Z) :
  ∃ k, isoweek1monday y = 7 * k + 1 ∧
       ymd2ord y 1 1 - 3 ≤ isoweek1monday y ≤ ymd2ord y 1 1 + 3.
Proof.
  unfold isoweek1monday. cbv zeta.
  destruct (Z.ltb_spec 3 ((ymd2ord y 1 1 + 6) mod 7)).
  - exists ((ymd2ord y 1 1 + 6) / 7). Z.div_mod_to_equations. lia.
  - exists ((ymd2ord y 1 1 + 6) / 7 - 1). Z.div_mod_to_equations. lia.
Qed.

(** An ISO year has 52 or 53 weeks. *)
Lemma isoweek1monday_succ (y : Z) :
  isoweek1monday (y + 1) = isoweek1monday y + 364 ∨
  isoweek1monday (y + 1) = isoweek1monday y + 371.
Proof.
  destruct (isoweek1monday_spec y) as (k & Hk & Hb).
  destruct (isoweek1monday_spec (y + 1)) as (k' & Hk' & Hb').
  rewrite !first_day, ?days_before_year_succ in *.
  pose proof (year_length_bounds y). lia.
Qed.

Lemma isoweek1monday_mono (y1 y2 : Z) :
  y1 ≤ y2 → isoweek1monday y1 ≤ isoweek1monday y2.
Proof.
  intros Hle. replace y2 with (y1 + Z.of_nat (Z.to_nat (y2 - y1))) by lia.
  induction (Z.to_nat (y2 - y1)) as [|n IH].
  - rewrite Nat2Z.inj_0, Z.add_0_r. lia.
  - rewrite Nat2Z.inj_succ.
    replace (y1 + Z.succ (Z.of_nat n)) with (y1 + Z.of_nat n + 1) by lia.
    destruct (isoweek1monday_succ (y1 + Z.of_nat n)); lia.
Qed.

(** What [isocalendar] returns: the ISO year whose weeks hold the day,
    and the week and the weekday that locate it from the Monday of week 1. *)
Lemma isocalendar_spec (d : datetime) :
  valid_datetime d = true →
  isoweek1monday (iso_year d) ≤ toordinal d < isoweek1monday (iso_year d + 1) ∧
  toordinal d = isoweek1monday (iso_year d) + 7 * (iso_week d - 1) + (iso_weekday d - 1) ∧
  1 ≤ iso_week d ∧ 1 ≤ iso_weekday d ≤ 7.
Proof.
  intros [Hm Hd]%valid_datetime_date.
  pose proof (ymd2ord_in_year (year d) _ _ Hm Hd) as Hin.
  fold (toordinal d) in Hin.
  unfold iso_year, iso_week, iso_weekday, isocalendar. cbv zeta.
  fold (toordinal d). set (t := toordinal d) in *. set (y := year d) in *.
  destruct (isoweek1monday_spec (y - 1)) as (k0 & Hk0 & Hb0).
  destruct (isoweek1monday_spec y) as (k1 & Hk1 & Hb1).
  destruct (isoweek1monday_spec (y + 1)) as (k2 & Hk2 & Hb2).
  pose proof (isoweek1monday_succ (y - 1)) as Hs0.
  pose proof (isoweek1monday_succ y) as Hs1.
  pose proof (isoweek1monday_succ (y + 1)) as Hs2.
  replace (y - 1 + 1) with y in Hs0 by lia.
  rewrite !first_day in *.
  pose proof (days_before_year_succ (y - 1)) as Hy0.
  replace (y - 1 + 1) with y in Hy0 by lia.
  pose proof (days_before_year_succ y) as Hy1.
  pose proof (year_length_bounds (y - 1)). pose proof (year_length_bounds y).
  destruct (Z.ltb_spec ((t - isoweek1monday y) / 7) 0) as [Hneg|Hpos].
  - cbn [fst snd]. replace (y - 1 + 1) with y by lia.
    Z.div_mod_to_equations. lia.
  - destruct (Z.leb_spec 52 ((t - isoweek1monday y) / 7)) as [H52|H52];
      destruct (Z.leb_spec (isoweek1monday (y + 1)) t) as [Hnext|Hnext];
      cbn [andb fst snd]; Z.div_mod_to_equations; lia.
Qed.

(** Two days have the same ISO year and ISO week exactly when they lie in
    the same Monday-to-Sunday week. *)
Lemma same_iso_week_iff (a b : datetime) :
  valid_datetime a = true → valid_datetime b = true →
  (iso_year a = iso_year b ∧ iso_week a = iso_week b) ↔ week_index a = week_index b.
Proof.
  intros Ha Hb. unfold week_index.
  destruct (isocalendar_spec a Ha) as (Ha1 & Ha2 & Ha3 & Ha4).
  destruct (isocalendar_spec b Hb) as (Hb1 & Hb2 & Hb3 & Hb4).
  destruct (isoweek1monday_spec (iso_year a)) as (ka & Hka & _).
  destruct (isoweek1monday_spec (iso_year b)) as (kb & Hkb & _).
  destruct (isoweek1monday_spec (iso_year a + 1)) as (ka' & Hka' & _).
  destruct (isoweek1monday_spec (iso_year b + 1)) as (kb' & Hkb' & _).
  split.
  - intros [Hy Hw]. rewrite Hy in *. Z.div_mod_to_equations. lia.
  - intros Hidx.
    assert (iso_year a = iso_year b) as Hy.
    { destruct (Z.lt_trichotomy (iso_year a) (iso_year b)) as [Hlt|[Heq|Hgt]];
        [|done|].
      - pose proof (isoweek1monday_mono (iso_year a + 1) (iso_year b) ltac:(lia)).
        Z.div_mod_to_equations. lia.
      - pose proof (isoweek1monday_mono (iso_year b + 1) (iso_year a) ltac:(lia)).
        Z.div_mod_to_equations. lia. }
    split; [done|]. rewrite Hy in *. Z.div_mod_to_equations. lia.
Qed.
End CalendarFacts.

(** ** The three windows *)

(** Every member of [JobFrequency] has its strategy. *)
Lemma FREQUENCY_STRATEGIES_lookup (f : JobFrequency) :
  FREQUENCY_STRATEGIES !! JobFrequency_value f =
    Some match f with
         | DAILY => _check_daily
         | WEEKLY => _check_weekly
         | MONTHLY => _check_monthly
         end.
Proof.
  unfold FREQUENCY_STRATEGIES. destruct f.
  - apply lookup_insert_eq.
  - rewrite lookup_insert_ne by done. apply lookup_insert_eq.
  - rewrite !lookup_insert_ne by done. apply lookup_singleton_eq.
Qed.

Lemma _check_daily_spec (a b : datetime) :
  _check_daily a b = true ↔ year a = year b ∧ month a = month b ∧ day a = day b.
Proof.
  unfold _check_daily, Calendar.date. rewrite bool_decide_eq_true.
  split; [by intros [= -> -> ->]|by intros (-> & -> & ->)].
Qed.

Lemma _check_monthly_spec (a b : datetime) :
  _check_monthly a b = true ↔ year a = year b ∧ month a = month b.
Proof.
  unfold _check_monthly. rewrite andb_true_iff, !bool_decide_eq_true. tauto.
Qed.

Lemma _check_weekly_spec (a b : datetime) :
  _check_weekly a b = true ↔ iso_year a = iso_year b ∧ iso_week a = iso_week b.
Proof.
  unfold _check_weekly, iso_year, iso_week. rewrite bool_decide_eq_true.
  destruct (Calendar.isocalendar a) as [[ya wa] da].
  destruct (Calendar.isocalendar b) as [[yb wb] db]. simpl.
  split; [by intros [= -> ->]|by intros [-> ->]].
Qed.

(** Days of one Monday-to-Sunday week that fall on the same weekday are
    the same day. *)
Lemma week_index_weekday (a b : datetime) :
  week_index a = week_index b → Calendar.weekday a = Calendar.weekday b →
  Calendar.toordinal a = Calendar.toordinal b.
Proof.
  unfold week_index, Calendar.weekday. intros Hidx Hday.
  Z.div_mod_to_equations. lia.
Qed.

(** C4: the evaluator returns true exactly when the last run and the
    reference time lie in the same day (daily), the same ISO year and ISO
    week, that is the same Monday-to-Sunday week (weekly), the same month of
    the same year (monthly); so the same weekday of another week is outside
    the weekly window, and the same month of another year outside the
    monthly one. *)
Theorem C4_frequency_windows
    (w : World) (last_run : datetime) (current_time : option datetime) :
  let now := default (clock w) current_time in
  let within f :=
    result (is_execution_within_current_interval
              last_run (JobFrequency_value f) current_time w) in
  Calendar.valid_datetime last_run = true → Calendar.valid_datetime now = true →
  (∃ b, within DAILY = Ret b ∧
        (b = true ↔
           year last_run = year now ∧ month last_run = month now ∧
           day last_run = day now)) ∧
  (∃ b, within WEEKLY = Ret b ∧
        (b = true ↔ iso_year last_run = iso_year now ∧ iso_week last_run = iso_week now) ∧
        (b = true ↔ week_index last_run = week_index now) ∧
        (Calendar.weekday last_run = Calendar.weekday now →
         Calendar.toordinal last_run ≠ Calendar.toordinal now → b = false)) ∧
  (∃ b, within MONTHLY = Ret b ∧
        (b = true ↔ year last_run = year now ∧ month last_run = month now) ∧
        (month last_run = month now → year last_run ≠ year now → b = false)).
Proof.
  intros now within Hlast Hnow. subst within. cbv beta.
  rewrite !is_execution_within_current_interval_run.
  rewrite !FREQUENCY_STRATEGIES_lookup. fold now. cbn [result snd].
  split; [|split].
  - eexists. split; [done|]. apply _check_daily_spec.
  - eexists. split; [done|].
    pose proof (same_iso_week_iff last_run now Hlast Hnow) as Hweek.
    pose proof (_check_weekly_spec last_run now) as Hspec.
    split; [done|]. split; [by rewrite Hspec|].
    intros Hday Hord. apply not_true_is_false. intros Htrue.
    apply Hord, week_index_weekday; [|done]. by apply Hweek, Hspec.
  - eexists. split; [done|].
    pose proof (_check_monthly_spec last_run now) as Hspec.
    split; [done|]. intros Hm Hy. apply not_true_is_false. intros Htrue.
    by apply Hspec in Htrue as [? _].
Qed.

(** The runs of the tests: a Monday and the Sunday that ends its week; two
    Mondays in a row; February of two years. *)
Lemma C4_frequency_windows_witness :
  result (is_execution_within_current_interval
            (mk_datetime 2026 1 26 10 0 0 0) "weekly"
            (Some (mk_datetime 2026 2 1 15 0 0 0)) sample_world) = Ret true ∧
  result (is_execution_within_current_interval
            (mk_datetime 2026 1 19 10 0 0 0) "weekly"
            (Some (mk_datetime 2026 1 26 10 0 0 0)) sample_world) = Ret false ∧
  result (is_execution_within_current_interval
            (mk_datetime 2025 2 15 10 0 0 0) "monthly"
            (Some (mk_datetime 2026 2 15 10 0 0 0)) sample_world) = Ret false.
Proof.
  split; [|split].
  - destruct (C4_frequency_windows sample_world (mk_datetime 2026 1 26 10 0 0 0)
                (Some (mk_datetime 2026 2 1 15 0 0 0)) eq_refl eq_refl)
      as (_ & (b & Hrun & _ & Hidx & _) & _).
    change (JobFrequency_value WEEKLY) with "weekly" in Hrun. rewrite Hrun.
    f_equal. apply Hidx. reflexivity.
  - destruct (C4_frequency_windows sample_world (mk_datetime 2026 1 19 10 0 0 0)
                (Some (mk_datetime 2026 1 26 10 0 0 0)) eq_refl eq_refl)
      as (_ & (b & Hrun & _ & _ & Hday) & _).
    change (JobFrequency_value WEEKLY) with "weekly" in Hrun. rewrite Hrun.
    f_equal. apply Hday; [reflexivity|discriminate].
  - destruct (C4_frequency_windows sample_world (mk_datetime 2025 2 15 10 0 0 0)
                (Some (mk_datetime 2026 2 15 10 0 0 0)) eq_refl eq_refl)
      as (_ & _ & (b & Hrun & _ & Hyear)).
    change (JobFrequency_value MONTHLY) with "monthly" in Hrun. rewrite Hrun.
    f_equal. apply Hyear; [reflexivity|discriminate].
Defined.

(** * Further properties of [core.py] *)

(** ** The resolver, case by case *)

Lemma _analyze_log_file_run (w : World) (path : string) (mtime : datetime) :
  ∃ st, _analyze_log_file path mtime w = ([EvRead path], Ret st).
Proof.
  destruct (read_bytes w path) as [bs|e] eqn:Hread.
  - eexists. apply _analyze_log_file_read. rewrite open_read_run. by rewrite Hread.
  - eexists. apply _analyze_log_file_unreadable. rewrite open_read_run. by rewrite Hread.
Qed.

(** Every way the resolver returns, with what it asked and what it was
    answered. *)
Lemma get_job_state_cases (w : World) (job : Job) t st :
  get_job_state job w = (t, Ret st) →
  ∃ tp running tl latest,
    is_job_running (Some (process_pattern job)) w = (tp, Ret running) ∧
    get_latest_log_file job w = (tl, Ret latest) ∧
    ((running = true ∧ t = tp ++ tl ∧
      st = mk_JobState RUNNING "Process active" latest None) ∨
     (running = false ∧ (latest = None ∨ latest = Some "") ∧ t = tp ++ tl ∧
      st = mk_JobState MISSING "No logs found" None None) ∨
     (running = false ∧
      ∃ path mt dt fresh,
        latest = Some path ∧ path ≠ "" ∧
        getmtime w path = Ret mt ∧ fromtimestamp w mt = Ret dt ∧
        result (is_execution_within_current_interval
                  dt (JobFrequency_value (frequency job)) None w) = Ret fresh ∧
        ((fresh = false ∧ t = tp ++ tl ++ [EvStat path; EvNow] ∧
          st = mk_JobState STALE "Pending" (Some path) (Some dt)) ∨
         (fresh = true ∧ t = tp ++ tl ++ [EvStat path; EvNow; EvRead path] ∧
          _analyze_log_file path dt w = ([EvRead path], Ret st))))).
Proof.
  unfold get_job_state. intros Hrun.
  apply run_bind_inv in Hrun as (tp & running & t1 & Hp & Hrun & ->).
  exists tp, running.
  destruct running.
  - apply run_bind_inv in Hrun as (tl & latest & t2 & Hl & Hret & ->).
    injection Hret as <- <-. exists tl, latest. rewrite app_nil_r. by auto 10.
  - apply run_bind_inv in Hrun as (tl & latest & t2 & Hl & Hrun & ->).
    exists tl, latest. split; [done|]. split; [done|].
    destruct latest as [[|c s]|].
    + injection Hrun as <- <-. rewrite app_nil_r. right; left. by auto 10.
    + apply run_bind_inv in Hrun as (ts & mt & t3 & Hs & Hrun & ->).
      apply os_path_getmtime_inv in Hs as [-> Hmt].
      apply run_bind_inv in Hrun as (tc & dt & t4 & Hc & Hrun & ->).
      unfold datetime_fromtimestamp in Hc. injection Hc as <- Hdt.
      apply run_bind_inv in Hrun as (tn & fresh & t5 & Hw & Hrun & ->).
      pose proof Hw as Hw'.
      rewrite is_execution_within_current_interval_run in Hw'.
      injection Hw' as <- Hfresh.
      right; right. split; [done|].
      exists (String c s), mt, dt, fresh.
      split; [done|]. split; [done|]. split; [done|]. split; [done|].
      split; [by rewrite Hw|].
      destruct fresh; simpl in Hrun.
      * right. destruct (_analyze_log_file_run w (String c s) dt) as [st' Han].
        rewrite Han in Hrun. injection Hrun as <- <-.
        split; [done|]. split; [|done]. by rewrite !app_nil_l.
      * left. injection Hrun as <- <-. by rewrite app_nil_r.
    + injection Hrun as <- <-. rewrite app_nil_r. right; left. by auto 10.
Qed.

(** What the classifier returned, and why. *)
Lemma _analyze_log_file_inv (w : World) (path : string) (mtime : datetime) t st :
  _analyze_log_file path mtime w = (t, Ret st) →
  t = [EvRead path] ∧
  ((∃ e, read_bytes w path = Raise e ∧
         st = mk_JobState ERROR (exn_str e) (Some path) None) ∨
   (∃ bs, read_bytes w path = Ret bs ∧
          ((occurs MARKER_FAILED (decode_replace w bs) ∧
            st = mk_JobState FAILED "Failed" (Some path) (Some mtime)) ∨
           (¬ occurs MARKER_FAILED (decode_replace w bs) ∧
            occurs MARKER_SUCCESS (decode_replace w bs) ∧
            st = mk_JobState SUCCESS "Finished" (Some path) (Some mtime)) ∨
           (¬ occurs MARKER_FAILED (decode_replace w bs) ∧
            ¬ occurs MARKER_SUCCESS (decode_replace w bs) ∧
            occurs MARKER_STARTED (decode_replace w bs) ∧
            st = mk_JobState CRASHED "Crashed" (Some path) (Some mtime)) ∨
           (¬ occurs MARKER_FAILED (decode_replace w bs) ∧
            ¬ occurs MARKER_SUCCESS (decode_replace w bs) ∧
            ¬ occurs MARKER_STARTED (decode_replace w bs) ∧
            st = mk_JobState UNKNOWN "Unknown log format" (Some path) (Some mtime))))).
Proof.
  destruct (read_bytes w path) as [bs|e] eqn:Hread.
  - erewrite _analyze_log_file_read
      by (rewrite open_read_run; by rewrite Hread).
    intros [= <- <-]. split; [done|]. right. exists bs. split; [done|].
    rewrite <- !contains_false, <- !contains_spec.
    destruct (contains MARKER_FAILED _); [by left|].
    destruct (contains MARKER_SUCCESS _); [by right; left|].
    destruct (contains MARKER_STARTED _); [by right; right; left|].
    by right; right; right.
  - erewrite _analyze_log_file_unreadable
      by (rewrite open_read_run; by rewrite Hread).
    intros [= <- <-]. split; [done|]. left. by exists e.
Qed.

Lemma get_job_state_timed
    (w : World) (job : Job) (t : list event) (st : JobState) :
  get_job_state job w = (t, Ret st) →
  (is_Some (last_modification_time st) ↔ status st ∈ timed_statuses) ∧
  (is_Some (last_modification_time st) → is_Some (file st)).
Proof.
  intros Hrun. unfold timed_statuses.
  apply get_job_state_cases in Hrun
    as (tp & running & tl & latest & _ & _ &
        [(_ & _ & ->) | [(_ & _ & _ & ->) |
         (_ & path & mt & dt & fresh & _ & _ & _ & _ & _ &
          [(_ & _ & ->) | (_ & _ & Han)])]]).
  - simpl. split; [|by intros [? ?]]. split; [by intros [? ?]|].
    intros Hin. repeat (apply elem_of_cons in Hin as [?|Hin]; [done|]).
    by apply elem_of_nil in Hin.
  - simpl. split; [|by intros [? ?]]. split; [by intros [? ?]|].
    intros Hin. repeat (apply elem_of_cons in Hin as [?|Hin]; [done|]).
    by apply elem_of_nil in Hin.
  - simpl. split; [|by eauto]. split; [intros _; by left|by eauto].
  - apply _analyze_log_file_inv in Han
      as [_ [(e & _ & ->) | (bs & _ & [(_ & ->) | [(_ & _ & ->) |
           [(_ & _ & _ & ->) | (_ & _ & _ & ->)]]])]]; simpl.
    + split; [|by intros [? ?]]. split; [by intros [? ?]|].
      intros Hin. repeat (apply elem_of_cons in Hin as [?|Hin]; [done|]).
      by apply elem_of_nil in Hin.
    + split; [|by eauto]. split; [intros _|by eauto]. by do 2 right; left.
    + split; [|by eauto]. split; [intros _|by eauto]. by right; left.
    + split; [|by eauto]. split; [intros _|by eauto]. by do 3 right; left.
    + split; [|by eauto]. split; [intros _|by eauto]. by do 4 right; left.
Qed.

(** The file of a returned state is what the locator returned: a newest
    matching entry. *)
Lemma get_job_state_file_latest (w : World) (job : Job) t st path :
  get_job_state job w = (t, Ret st) → file st = Some path →
  latest_of w (matching w job) path.
Proof.
  intros Hrun Hfile.
  apply get_job_state_cases in Hrun
    as (tp & running & tl & latest & _ & Hl &
        [(_ & _ & ->) | [(_ & _ & _ & ->) |
         (_ & p & mt & dt & fresh & -> & _ & _ & _ & _ &
          [(_ & _ & ->) | (_ & _ & Han)])]]).
  - simpl in Hfile. subst latest.
    by apply get_latest_log_file_inv in Hl as [_ [_ Hlatest]].
  - done.
  - injection Hfile as <-.
    by apply get_latest_log_file_inv in Hl as [_ [_ Hlatest]].
  - rewrite (_analyze_log_file_file _ _ _ _ _ Han) in Hfile. injection Hfile as <-.
    by apply get_latest_log_file_inv in Hl as [_ [_ Hlatest]].
Qed.

(** X1: what a state the resolver returns carries. It has a
    modification time exactly when its status is STALE, SUCCESS, FAILED,
    CRASHED or UNKNOWN; it never has a time without a path; and the path it
    has is an entry that matches the log pattern of the job and that no
    matching entry is newer than. *)
Theorem get_job_state_time_needs_file
    (w : World) (job : Job) (t : list event) (st : JobState) :
  get_job_state job w = (t, Ret st) →
  (is_Some (last_modification_time st) ↔ status st ∈ timed_statuses) ∧
  (is_Some (last_modification_time st) → is_Some (file st)) ∧
  (∀ path, file st = Some path → latest_of w (matching w job) path).
Proof.
  intros Hrun.
  destruct (get_job_state_timed _ _ _ _ Hrun) as [Htimed Hfile].
  split; [done|]. split; [done|].
  intros path Hpath. by eapply get_job_state_file_latest.
Qed.

Lemma get_job_state_time_needs_file_witness :
  (is_Some (Some (mk_datetime 2026 1 31 12 0 0 0)) ↔ STALE ∈ timed_statuses) ∧
  (is_Some (None : option datetime) ↔ MISSING ∈ timed_statuses).
Proof.
  split.
  - apply (proj1 (get_job_state_time_needs_file sample_world backup_job _
             (mk_JobState STALE "Pending" (Some "/home/ops/logs/backup-2.log")
                (Some (mk_datetime 2026 1 31 12 0 0 0))) eq_refl)).
  - apply (proj1 (get_job_state_time_needs_file sample_world report_job _
             (mk_JobState MISSING "No logs found" None None) eq_refl)).
Defined.

(** X2: the message of a returned state is fixed by its status, but for
    ERROR, whose message is the text of the exception that the read of the
    reported file raised. *)
Theorem get_job_state_message
    (w : World) (job : Job) (t : list event) (st : JobState) :
  get_job_state job w = (t, Ret st) →
  match status_message (status st) with
  | Some m => message st = m
  | None => ∃ path e, file st = Some path ∧ read_bytes w path = Raise e ∧
                      message st = exn_str e
  end.
Proof.
  intros Hrun.
  apply get_job_state_cases in Hrun
    as (tp & running & tl & latest & _ & _ &
        [(_ & _ & ->) | [(_ & _ & _ & ->) |
         (_ & path & mt & dt & fresh & _ & _ & _ & _ & _ &
          [(_ & _ & ->) | (_ & _ & Han)])]]); [done..|].
  apply _analyze_log_file_inv in Han
    as [_ [(e & Hread & ->) | (bs & _ & [(_ & ->) | [(_ & _ & ->) |
         [(_ & _ & _ & ->) | (_ & _ & _ & ->)]]])]]; simpl; [|done..].
  by exists path, e.
Qed.

Lemma get_job_state_message_witness :
  message (mk_JobState STALE "Pending" (Some "/home/ops/logs/backup-2.log")
             (Some (mk_datetime 2026 1 31 12 0 0 0))) = "Pending".
Proof.
  apply (get_job_state_message sample_world backup_job _ _ eq_refl).
Defined.

(** ** When the resolver returns *)

(** X3: the resolver returns a state whenever every matching entry has a
    modification time and every such time has a local [datetime]: a failing
    probe and an unreadable log are answered with a state, not an
    exception. And it returns only if every matching entry has a
    modification time. *)
Theorem get_job_state_returns (w : World) (job : Job) :
  (all_stat w (matching w job) →
   (∀ p mt, p ∈ matching w job → getmtime w p = Ret mt →
            ∃ dt, fromtimestamp w mt = Ret dt) →
   ∃ t st, get_job_state job w = (t, Ret st)) ∧
  ((∃ t st, get_job_state job w = (t, Ret st)) → all_stat w (matching w job)).
Proof.
  split.
  - intros Hall Hconv.
    destruct (is_job_running_returns w (Some (process_pattern job)))
      as (tp & running & Hp & _).
    apply get_latest_log_file_returns_iff in Hall as (tl & latest & Hl).
    destruct running.
    { eexists _, _. by apply get_job_state_running. }
    destruct latest as [path|]; [|eexists _, _; by apply get_job_state_missing].
    destruct (decide (path = "")) as [->|Hne].
    { unfold get_job_state.
      rewrite (run_bind_ret _ _ _ _ _ Hp). cbv beta iota.
      rewrite (run_bind_ret _ _ _ _ _ Hl). by eexists _, _. }
    pose proof Hl as Hl'.
    apply get_latest_log_file_inv in Hl' as [_ [_ (Hin & mt & Hmt & _)]].
    destruct (Hconv path mt Hin Hmt) as [dt Hdt].
    rewrite (get_job_state_found w job tp tl path mt dt) by done.
    destruct (_analyze_log_file_run w path dt) as [st Han].
    destruct (FREQUENCY_STRATEGIES !! _) as [check|]; [|by eexists _, _].
    destruct (check dt (clock w)); [|by eexists _, _].
    rewrite Han. by eexists _, _.
  - intros (t & st & Hrun).
    apply get_job_state_cases in Hrun as (tp & running & tl & latest & _ & Hl & _).
    apply get_latest_log_file_returns_iff. eauto.
Qed.

Lemma get_job_state_returns_witness :
  ∃ t st, get_job_state backup_job sample_world = (t, Ret st).
Proof.
  apply (proj1 (get_job_state_returns sample_world backup_job)).
  - intros q Hq.
    repeat (apply elem_of_cons in Hq as [->|Hq]; [by eexists|]).
    by apply elem_of_nil in Hq.
  - intros p mt _ _. by eexists.
Defined.

(** ** Which of the newest entries the locator returns *)

Lemma max_loop_first (w : World) (items : list string) :
  ∀ (maxitem : string) (maxval : timestamp) t r,
    max_loop os_path_getmtime items maxitem maxval w = (t, Ret r) →
    r = maxitem ∨
    ∃ before after v,
      items = before ++ r :: after ∧ getmtime w r = Ret v ∧ maxval < v ∧
      ∀ q tq, q ∈ before → getmtime w q = Ret tq → tq < v.
Proof.
  induction items as [|item rest IH]; intros maxitem maxval t r Hrun.
  - injection Hrun as <- <-. by left.
  - cbn [max_loop] in Hrun.
    apply run_bind_inv in Hrun as (t1 & val & t2 & Hkey & Hrest & ->).
    apply os_path_getmtime_inv in Hkey as [-> Hval].
    destruct (maxval <? val) eqn:Hlt.
    + apply Z.ltb_lt in Hlt. right.
      apply IH in Hrest as [->|(before & after & v & -> & Hv & Hgt & Hbefore)].
      * exists [], rest, val. split; [done|]. split; [done|]. split; [done|].
        intros q tq Hq. by apply elem_of_nil in Hq.
      * exists (item :: before), after, v.
        split; [done|]. split; [done|]. split; [lia|].
        intros q tq [->|Hq]%elem_of_cons Hq'; [|by eapply Hbefore].
        rewrite Hval in Hq'. injection Hq' as <-. lia.
    + apply Z.ltb_ge in Hlt.
      apply IH in Hrest as [->|(before & after & v & -> & Hv & Hgt & Hbefore)];
        [by left|]. right.
      exists (item :: before), after, v.
      split; [done|]. split; [done|]. split; [lia|].
      intros q tq [->|Hq]%elem_of_cons Hq'; [|by eapply Hbefore].
      rewrite Hval in Hq'. injection Hq' as <-. lia.
Qed.

(** X4: among the matching entries with the greatest modification time
    the locator returns the one [glob] listed first: every entry listed
    before the returned one is strictly older. *)
Theorem get_latest_log_file_first_newest
    (w : World) (job : Job) (t : list event) (p : string) :
  get_latest_log_file job w = (t, Ret (Some p)) →
  ∃ before after tp,
    matching w job = before ++ p :: after ∧ getmtime w p = Ret tp ∧
    ∀ q, q ∈ before → ∃ tq, getmtime w q = Ret tq ∧ tq < tp.
Proof.
  intros Hrun.
  pose proof Hrun as Hinv.
  apply get_latest_log_file_inv in Hinv as [_ [Hall _]].
  destruct (decide (matching w job = [])) as [Hnil|Hne].
  { rewrite get_latest_log_file_none in Hrun by done. discriminate. }
  rewrite get_latest_log_file_some in Hrun by done.
  destruct (max_key _ _ w) as [t' [r|e]] eqn:Hmax; [|discriminate].
  injection Hrun as <- <-.
  destruct (matching w job) as [|item rest]; [done|].
  unfold max_key in Hmax.
  apply run_bind_inv in Hmax as (t1 & val & t2 & Hkey & Hrest & ->).
  apply os_path_getmtime_inv in Hkey as [-> Hval].
  apply max_loop_first in Hrest
    as [->|(before & after & v & -> & Hv & Hgt & Hbefore)].
  - exists [], rest, val. split; [done|]. split; [done|].
    intros q Hq. by apply elem_of_nil in Hq.
  - exists (item :: before), after, v. split; [done|]. split; [done|].
    intros q Hq.
    destruct (Hall q) as [tq Htq].
    { change (q ∈ (item :: before) ++ r :: after).
      apply elem_of_app. by left. }
    exists tq. split; [done|].
    apply elem_of_cons in Hq as [->|Hq].
    + rewrite Hval in Htq. injection Htq as <-. lia.
    + by eapply Hbefore.
Qed.

Lemma get_latest_log_file_first_newest_witness :
  ∃ before after tp,
    matching sample_world backup_job
    = before ++ "/home/ops/logs/backup-2.log" :: after ∧
    getmtime sample_world "/home/ops/logs/backup-2.log" = Ret tp ∧
    ∀ q, q ∈ before → ∃ tq, getmtime sample_world q = Ret tq ∧ tq < tp.
Proof.
  apply (get_latest_log_file_first_newest sample_world backup_job
           [EvGlob "/home/ops/logs/backup-*.log";
            EvStat "/home/ops/logs/backup-1.log";
            EvStat "/home/ops/logs/backup-2.log"]).
  reflexivity.
Defined.

(** ** What a SUCCESS means *)

(** X5: the resolver returns SUCCESS exactly when the probe found no
    process, the locator returned a log, the modification time of that log
    lies in the window of the job, the log could be read and holds the
    success marker and no failure marker. *)
Theorem get_job_state_success_iff
    (w : World) (job : Job) (t : list event) (st : JobState) :
  (get_job_state job w = (t, Ret st) ∧ status st = SUCCESS) ↔
  ∃ tp tl path mt dt bs,
    is_job_running (Some (process_pattern job)) w = (tp, Ret false) ∧
    get_latest_log_file job w = (tl, Ret (Some path)) ∧ path ≠ "" ∧
    getmtime w path = Ret mt ∧ fromtimestamp w mt = Ret dt ∧
    result (is_execution_within_current_interval
              dt (JobFrequency_value (frequency job)) None w) = Ret true ∧
    read_bytes w path = Ret bs ∧
    occurs MARKER_SUCCESS (decode_replace w bs) ∧
    ¬ occurs MARKER_FAILED (decode_replace w bs) ∧
    t = tp ++ tl ++ [EvStat path; EvNow; EvRead path] ∧
    st = mk_JobState SUCCESS "Finished" (Some path) (Some dt).
Proof.
  split.
  - intros [Hrun Hst].
    apply get_job_state_cases in Hrun
      as (tp & running & tl & latest & Hp & Hl &
          [(_ & _ & ->) | [(_ & _ & _ & ->) |
           (-> & path & mt & dt & fresh & -> & Hne & Hmt & Hdt & Hfresh &
            [(_ & _ & ->) | (-> & -> & Han)])]]); [done..|].
    apply _analyze_log_file_inv in Han
      as [_ [(e & _ & ->) | (bs & Hread & [(_ & ->) | [(HF & HS & ->) |
           [(_ & _ & _ & ->) | (_ & _ & _ & ->)]]])]]; [done..| |done|done].
    exists tp, tl, path, mt, dt, bs. done.
  - intros (tp & tl & path & mt & dt & bs & Hp & Hl & Hne & Hmt & Hdt & Hfresh &
            Hread & HS & HF & -> & ->).
    split; [|done].
    rewrite (get_job_state_found w job tp tl path mt dt) by done.
    rewrite is_execution_within_current_interval_run in Hfresh. simpl in Hfresh.
    destruct (FREQUENCY_STRATEGIES !! _) as [check|]; [|done].
    injection Hfresh as ->.
    assert (open_read path w = ([EvRead path], Ret (decode_replace w bs))) as Hopen
      by (rewrite open_read_run; by rewrite Hread).
    rewrite (_analyze_log_file_read _ _ _ _ _ Hopen).
    apply contains_false in HF. apply contains_spec in HS.
    by rewrite HF, HS.
Qed.

Lemma get_job_state_success_iff_witness :
  get_job_state backup_job fresh_world =
    ([EvSubprocess (pgrep_args "backup_script.py");
      EvGlob "/home/ops/logs/backup-*.log";
      EvStat "/home/ops/logs/backup-1.log";
      EvStat "/home/ops/logs/backup-2.log";
      EvStat "/home/ops/logs/backup-2.log"; EvNow;
      EvRead "/home/ops/logs/backup-2.log"],
     Ret (mk_JobState SUCCESS "Finished" (Some "/home/ops/logs/backup-2.log")
            (Some (mk_datetime 2026 2 1 12 0 0 0)))).
Proof.
  apply (proj2 (get_job_state_success_iff fresh_world backup_job _ _)).
  exists [EvSubprocess (pgrep_args "backup_script.py")],
    [EvGlob "/home/ops/logs/backup-*.log";
     EvStat "/home/ops/logs/backup-1.log";
     EvStat "/home/ops/logs/backup-2.log"],
    "/home/ops/logs/backup-2.log", 200, (mk_datetime 2026 2 1 12 0 0 0),
    (UTF8.bytes "[JOB STARTED]" ++ [xff] ++ UTF8.bytes "[JOB SUCCEEDED]").
  repeat split; try reflexivity; try discriminate.
  - apply contains_spec. vm_compute. reflexivity.
  - apply contains_false. vm_compute. reflexivity.
Defined.

(** ** What the resolver asks of the system *)

(** X6: the probe always answers, and its answer is true exactly when it
    was given a pattern that is not empty and [pgrep -f] on that pattern
    exited with status 0; a missing or empty pattern, any other exit status,
    and any exception of the query, each give the answer false. *)
Theorem is_job_running_true_iff (w : World) (pattern : option string) :
  ∃ b : bool,
    result (is_job_running pattern w) = Ret b ∧
    (b = true ↔
     ∃ p, pattern = Some p ∧ p ≠ "" ∧ subprocess_call w (pgrep_args p) = Ret 0) ∧
    (pattern = None ∨ pattern = Some "" → b = false) ∧
    (∀ p rc, pattern = Some p →
       subprocess_call w (pgrep_args p) = Ret rc → rc ≠ 0 → b = false) ∧
    (∀ p e, pattern = Some p →
       subprocess_call w (pgrep_args p) = Raise e → b = false).
Proof.
  destruct pattern as [p|].
  - destruct (decide (p = "")) as [->|Hne].
    + exists false. split; [done|]. split; [|done].
      split; [done|]. by intros (p & [= <-] & Hne & _).
    + rewrite is_job_running_query by done. cbn [result snd].
      destruct (subprocess_call w (pgrep_args p)) as [rc|e] eqn:Hcall.
      * exists (rc =? 0). split; [done|]. split; [|split; [|split]].
        -- split.
           ++ intros ->%Z.eqb_eq. by exists p.
           ++ intros (q & [= <-] & _ & Hq). rewrite Hcall in Hq.
              injection Hq as ->. done.
        -- by intros [?| [= ->]].
        -- intros q rc' [= <-] Hq Hrc. rewrite Hcall in Hq.
           injection Hq as ->. by apply Z.eqb_neq.
        -- intros q e [= <-] Hq. by rewrite Hcall in Hq.
      * exists false. split; [done|]. split; [|done].
        split; [done|]. intros (q & [= <-] & _ & Hq). by rewrite Hcall in Hq.
  - exists false. split; [done|]. split; [|done].
    split; [done|]. by intros (p & [=] & _).
Qed.

Lemma is_job_running_trace (w : World) (p : string) t r :
  is_job_running (Some p) w = (t, r) →
  ∀ ev, ev ∈ t → ev = EvSubprocess (pgrep_args p).
Proof.
  destruct (decide (p = "")) as [->|Hne].
  - intros [= <- <-] ev Hev. by apply elem_of_nil in Hev.
  - rewrite is_job_running_query by done. intros [= <- <-] ev Hev.
    by apply list_elem_of_singleton in Hev.
Qed.

(** Every event of an evaluation that returns is one of five. *)
Lemma get_job_state_trace_shape
    (w : World) (job : Job) (t : list event) (st : JobState) :
  get_job_state job w = (t, Ret st) →
  ∀ ev, ev ∈ t →
    ev = EvSubprocess (pgrep_args (process_pattern job)) ∨
    ev = EvGlob (expanded w job) ∨
    (∃ q, ev = EvStat q ∧ q ∈ matching w job) ∨
    ev = EvNow ∨
    (∃ p, ev = EvRead p ∧ file st = Some p ∧ latest_of w (matching w job) p).
Proof.
  intros Hrun.
  apply get_job_state_cases in Hrun
    as (tp & running & tl & latest & Hp & Hl & Hcases).
  pose proof (is_job_running_trace _ _ _ _ Hp) as Htp.
  pose proof Hl as Hl'. apply get_latest_log_file_inv in Hl' as [-> Hlatest].
  assert (∀ ev, ev ∈ tp ++ EvGlob (expanded w job) :: (EvStat <$> matching w job) →
            ev = EvSubprocess (pgrep_args (process_pattern job)) ∨
            ev = EvGlob (expanded w job) ∨
            (∃ q, ev = EvStat q ∧ q ∈ matching w job)) as Hbase.
  { intros ev [Hev|Hev]%elem_of_app; [left; by apply Htp|].
    apply elem_of_cons in Hev as [->|Hev]; [by right; left|].
    apply list_elem_of_fmap in Hev as (q & -> & Hq). right; right. eauto. }
  destruct Hcases
    as [(_ & -> & _) | [(_ & _ & -> & _) |
         (_ & path & mt & dt & fresh & -> & Hne & Hmt & Hdt & _ &
          [(_ & -> & _) | (_ & -> & Han)])]].
  - intros ev Hev. destruct (Hbase ev Hev) as [?|[?|?]]; auto.
  - intros ev Hev. destruct (Hbase ev Hev) as [?|[?|?]]; auto.
  - destruct Hlatest as [_ Hlatest]. intros ev Hev.
    rewrite app_assoc in Hev. apply elem_of_app in Hev as [Hev|Hev].
    { destruct (Hbase ev Hev) as [?|[?|?]]; auto. }
    apply elem_of_cons in Hev as [->|Hev].
    { right; right; left. exists path. split; [done|]. by destruct Hlatest. }
    apply list_elem_of_singleton in Hev as ->. auto.
  - destruct Hlatest as [_ Hlatest]. intros ev Hev.
    rewrite app_assoc in Hev. apply elem_of_app in Hev as [Hev|Hev].
    { destruct (Hbase ev Hev) as [?|[?|?]]; auto. }
    apply elem_of_cons in Hev as [->|Hev].
    { right; right; left. exists path. split; [done|]. by destruct Hlatest. }
    apply elem_of_cons in Hev as [->|Hev]; [auto|].
    apply list_elem_of_singleton in Hev as ->.
    do 4 right. exists path. split; [done|]. split; [|done].
    by eapply _analyze_log_file_file.
Qed.

(** X7: an evaluation that returns a state ran no command but [pgrep -f]
    on the pattern of the job, globbed nothing but the expanded log pattern,
    looked at the modification time of matching entries only, and read no
    file but the one it reports, which is a newest matching entry. *)
Theorem get_job_state_asks_little
    (w : World) (job : Job) (t : list event) (st : JobState) :
  get_job_state job w = (t, Ret st) →
  (∀ args, EvSubprocess args ∈ t → args = pgrep_args (process_pattern job)) ∧
  (∀ pattern, EvGlob pattern ∈ t → pattern = expanded w job) ∧
  (∀ p, EvStat p ∈ t → p ∈ matching w job) ∧
  (∀ p, EvRead p ∈ t → file st = Some p ∧ latest_of w (matching w job) p).
Proof.
  intros Hrun. pose proof (get_job_state_trace_shape _ _ _ _ Hrun) as Hshape.
  split; [|split; [|split]].
  - intros args Hev.
    destruct (Hshape _ Hev) as [Heq|[?|[(? & ? & _)|[?|(? & ? & _)]]]]; try done.
    by injection Heq.
  - intros pattern Hev.
    destruct (Hshape _ Hev) as [?|[Heq|[(? & ? & _)|[?|(? & ? & _)]]]]; try done.
    by injection Heq.
  - intros p Hev.
    destruct (Hshape _ Hev) as [?|[?|[(q & Heq & Hq)|[?|(? & ? & _)]]]]; try done.
    by injection Heq as ->.
  - intros p Hev.
    destruct (Hshape _ Hev) as [?|[?|[(? & ? & _)|[?|(q & Heq & Hfile & Hq)]]]];
      try done.
    by injection Heq as ->.
Qed.

Lemma get_job_state_asks_little_witness :
  Some "/home/ops/logs/backup-2.log" = Some "/home/ops/logs/backup-2.log" ∧
  latest_of fresh_world (matching fresh_world backup_job) "/home/ops/logs/backup-2.log".
Proof.
  apply (proj2 (proj2 (proj2
           (get_job_state_asks_little fresh_world backup_job _
              (mk_JobState SUCCESS "Finished" (Some "/home/ops/logs/backup-2.log")
                 (Some (mk_datetime 2026 2 1 12 0 0 0))) eq_refl)))).
  apply list_elem_of_In. simpl. tauto.
Defined.

(** ** How the windows nest *)

Lemma isocalendar_of_date (a b : datetime) :
  Calendar.date a = Calendar.date b → Calendar.isocalendar a = Calendar.isocalendar b.
Proof.
  unfold Calendar.date, Calendar.isocalendar, Calendar.toordinal.
  by intros [= -> -> ->].
Qed.

Lemma days_in_month_le (y m : Z) : Calendar.days_in_month y m ≤ 31.
Proof.
  unfold Calendar.days_in_month.
  destruct ((m =? 2) && Calendar.is_leap y); [lia|].
  destruct m as [|p|p]; try lia.
  do 4 (destruct p as [p|p|]; try lia).
Qed.

(** X8: a run that is fresh for a daily job is fresh for a weekly and for
    a monthly job; a run that is fresh for a weekly job is at most six days
    away from the reference time, and one that is fresh for a monthly job at
    most thirty. *)
Theorem windows_nest (w : World) (last_run now : datetime) :
  Calendar.valid_datetime last_run = true → Calendar.valid_datetime now = true →
  (fresh_for w DAILY last_run now →
   fresh_for w WEEKLY last_run now ∧ fresh_for w MONTHLY last_run now) ∧
  (fresh_for w WEEKLY last_run now →
   -6 ≤ Calendar.toordinal now - Calendar.toordinal last_run ≤ 6) ∧
  (fresh_for w MONTHLY last_run now →
   -30 ≤ Calendar.toordinal now - Calendar.toordinal last_run ≤ 30).
Proof.
  intros Hlast Hnow. unfold fresh_for.
  rewrite !is_execution_within_current_interval_run.
  rewrite !FREQUENCY_STRATEGIES_lookup. cbn [result snd default].
  split; [|split].
  - intros [= Hday]. pose proof Hday as Hdate.
    apply bool_decide_eq_true in Hdate.
    apply _check_daily_spec in Hday as (Hy & Hm & Hd).
    split; f_equal.
    + apply bool_decide_eq_true. by rewrite (isocalendar_of_date _ _ Hdate).
    + by apply _check_monthly_spec.
  - intros [= Hweek]. apply _check_weekly_spec in Hweek.
    apply (same_iso_week_iff _ _ Hlast Hnow) in Hweek.
    unfold week_index in Hweek. Z.div_mod_to_equations. lia.
  - intros [= Hmonth]. apply _check_monthly_spec in Hmonth as [Hy Hm].
    apply valid_datetime_date in Hlast as [_ Hd1].
    apply valid_datetime_date in Hnow as [_ Hd2].
    pose proof (days_in_month_le (year last_run) (month last_run)).
    pose proof (days_in_month_le (year now) (month now)).
    unfold Calendar.toordinal, Calendar.ymd2ord. rewrite Hy, Hm. lia.
Qed.

Lemma windows_nest_witness :
  -6 ≤ Calendar.toordinal (mk_datetime 2026 2 1 15 0 0 0)
       - Calendar.toordinal (mk_datetime 2026 1 26 10 0 0 0) ≤ 6.
Proof.
  apply (proj1 (proj2 (windows_nest sample_world (mk_datetime 2026 1 26 10 0 0 0)
                         (mk_datetime 2026 2 1 15 0 0 0) eq_refl eq_refl))).
  reflexivity.
Defined.

(** * Loading the jobs *)

Lemma load_jobs_run (rt : Runtime) (w : World) :
  load_jobs rt w =
    match read_bytes w (JOBS_FILE rt) with
    | Ret bs =>
        match jobs_of_bytes rt bs with
        | Ret jobs => ([Os (EvRead (JOBS_FILE rt))], Ret jobs)
        | Raise e => ([Os (EvRead (JOBS_FILE rt)); loading_error e], Ret [])
        end
    | Raise e => ([Os (EvRead (JOBS_FILE rt)); loading_error e], Ret [])
    end.
Proof.
  unfold load_jobs, App_try_except, mbind, App_MBind, App_bind, liftIO,
    open_raw, ask, App_of_outcome, jobs_of_bytes, print, loading_error.
  simpl. destruct (read_bytes w (JOBS_FILE rt)) as [bs|e]; [|done].
  destruct (json_loads rt bs) as [data|e]; [|done].
  destruct (json_get data "jobs" (JArray [])) as [v|e]; [|done].
  destruct (json_iter v) as [items|e]; [|done].
  by destruct (comprehension (Job_kwargs rt) items) as [jobs|e].
Qed.

Lemma comprehension_Forall2 {A B} (f : A → outcome B) (items : list A) (ys : list B) :
  comprehension f items = Ret ys ↔ Forall2 (λ x y, f x = Ret y) items ys.
Proof.
  revert ys. induction items as [|x rest IH]; intros ys; simpl.
  - split; [intros [= <-]; constructor|by intros ->%Forall2_nil_inv_l].
  - split.
    + destruct (f x) as [y|e] eqn:Hx; [|done].
      destruct (comprehension f rest) as [ys'|e] eqn:Hrest; [|done].
      intros [= <-]. constructor; [done|]. by apply IH.
    + intros (y & ys' & Hx & Hrest & ->)%Forall2_cons_inv_l.
      rewrite Hx. apply IH in Hrest. by rewrite Hrest.
Qed.

Lemma comprehension_raises {A B} (f : A → outcome B) (items : list A) x e :
  x ∈ items → f x = Raise e → ∃ e', comprehension f items = Raise e'.
Proof.
  induction items as [|x' rest IH]; intros Hin Hx; [by apply elem_of_nil in Hin|].
  simpl. destruct (f x') as [y|e0] eqn:Hx'; [|by eexists].
  apply elem_of_cons in Hin as [->|Hin]; [congruence|].
  destruct (IH Hin Hx) as [e' ->]. by eexists.
Qed.

(** X9: [load_jobs] never raises and asks nothing of the system but one
    read of [jobs.json]; either nothing is printed, or one line that
    starts with "Error loading jobs: " is and the list is empty. *)
Theorem load_jobs_never_raises (rt : Runtime) (w : World) :
  (∃ jobs, load_jobs rt w = ([Os (EvRead (JOBS_FILE rt))], Ret jobs)) ∨
  (∃ e, load_jobs rt w = ([Os (EvRead (JOBS_FILE rt)); loading_error e], Ret [])).
Proof.
  rewrite load_jobs_run.
  destruct (read_bytes w (JOBS_FILE rt)) as [bs|e]; [|right; by exists e].
  destruct (jobs_of_bytes rt bs) as [jobs|e]; [left; by exists jobs|right; by exists e].
Qed.

(** X10: the list is all or nothing. When the file holds an object whose
    "jobs" member is a list, [load_jobs] returns the jobs of all the records,
    in order, if every record is accepted; and as soon as one record is
    refused it returns no job at all, and prints the error. *)
Theorem load_jobs_all_or_nothing
    (rt : Runtime) (w : World) (bs : list byte)
    (members : list (string * json)) (items : list json) :
  read_bytes w (JOBS_FILE rt) = Ret bs →
  json_loads rt bs = Ret (JObject members) →
  members_get members "jobs" = Some (JArray items) →
  (∀ jobs, Forall2 (λ item job, Job_kwargs rt item = Ret job) items jobs →
           load_jobs rt w = ([Os (EvRead (JOBS_FILE rt))], Ret jobs)) ∧
  (∀ item e, item ∈ items → Job_kwargs rt item = Raise e →
             ∃ e', load_jobs rt w
                   = ([Os (EvRead (JOBS_FILE rt)); loading_error e'], Ret [])).
Proof.
  intros Hread Hparse Hjobs.
  assert (jobs_of_bytes rt bs = comprehension (Job_kwargs rt) items) as Hpipe.
  { unfold jobs_of_bytes. rewrite Hparse. simpl. by rewrite Hjobs. }
  split.
  - intros jobs Hall%comprehension_Forall2.
    rewrite load_jobs_run, Hread, Hpipe. by rewrite Hall.
  - intros item e Hin Hbad.
    destruct (comprehension_raises _ _ _ _ Hin Hbad) as [e' He'].
    exists e'. rewrite load_jobs_run, Hread, Hpipe. by rewrite He'.
Qed.

Lemma load_jobs_all_or_nothing_witness :
  load_jobs sample_runtime (installed sample_config_bytes sample_world)
  = ([Os (EvRead "/opt/monitor/jobs.json")], Ret [backup_job; report_job]) ∧
  ∃ e, load_jobs sample_runtime (installed incomplete_config_bytes sample_world)
       = ([Os (EvRead "/opt/monitor/jobs.json"); loading_error e], Ret []).
Proof.
  split.
  - apply (proj1 (load_jobs_all_or_nothing sample_runtime
                    (installed sample_config_bytes sample_world)
                    sample_config_bytes _ _ eq_refl eq_refl eq_refl)).
    repeat constructor.
  - apply (proj2 (load_jobs_all_or_nothing sample_runtime
                    (installed incomplete_config_bytes sample_world)
                    incomplete_config_bytes _ _ eq_refl eq_refl eq_refl)
             (JObject [("name", JString "Incomplete Job");
                       ("frequency", JString "daily")])
             (Exception "ValidationError" "validation errors for Job")).
    + apply list_elem_of_In. simpl. tauto.
    + reflexivity.
Defined.

Lemma comprehension_all_raise {A B} (f : A → outcome B) (items : list A) :
  (∀ x, x ∈ items → ∃ e, f x = Raise e) →
  comprehension f items = Ret [] ∨ ∃ e, comprehension f items = Raise e.
Proof.
  destruct items as [|x rest]; [by left|]. intros Hall. right.
  destruct (Hall x) as [e He]; [by left|]. simpl. rewrite He. by eexists.
Qed.

Lemma sample_runtime_kwargs : kwargs_need_mapping sample_runtime.
Proof. intros v Hv. destruct v; simpl; eauto. by destruct (Hv members). Qed.

(** X11: what [load_jobs] makes of a file without a list of jobs. An
    object without a "jobs" member gives the empty list and prints nothing;
    a value that is no object gives the empty list and the [AttributeError]
    on [get]; and a "jobs" member that is no list never gives a job. *)
Theorem load_jobs_without_list
    (rt : Runtime) (w : World) (bs : list byte) (data : json) :
  read_bytes w (JOBS_FILE rt) = Ret bs →
  json_loads rt bs = Ret data →
  (∀ members, data = JObject members → members_get members "jobs" = None →
              load_jobs rt w = ([Os (EvRead (JOBS_FILE rt))], Ret [])) ∧
  ((∀ members, data ≠ JObject members) →
   load_jobs rt w =
     ([Os (EvRead (JOBS_FILE rt));
       loading_error (Exception "AttributeError"
                        ("'" +:+ type_name data +:+ "' object has no attribute 'get'"))],
      Ret [])) ∧
  (kwargs_need_mapping rt →
   ∀ members v, data = JObject members → members_get members "jobs" = Some v →
                (∀ items, v ≠ JArray items) →
                (load_jobs rt w).2 = Ret []).
Proof.
  intros Hread Hparse. rewrite load_jobs_run, Hread. unfold jobs_of_bytes.
  rewrite Hparse. split; [|split].
  - intros members -> Hnone. simpl. by rewrite Hnone.
  - intros Hno. destruct data; try done. by destruct (Hno members).
  - intros Hkw members v -> Hsome Hv. simpl. rewrite Hsome.
    assert (∀ items : list json,
              (∀ x, x ∈ items → ∀ m, x ≠ JObject m) →
              comprehension (Job_kwargs rt) items = Ret [] ∨
              ∃ e, comprehension (Job_kwargs rt) items = Raise e) as Hcomp.
    { intros items Hitems. apply comprehension_all_raise.
      intros x Hx. apply Hkw. by apply Hitems. }
    destruct v as [| | | |s|items|ms]; simpl; try done.
    + destruct (Hcomp (JString <$> characters s)) as [->|[e ->]]; [|done..].
      by intros x (c & -> & _)%list_elem_of_fmap m.
    + by destruct (Hv items).
    + destruct (Hcomp ((λ kv, JString kv.1) <$> ms)) as [->|[e ->]]; [|done..].
      by intros x (c & -> & _)%list_elem_of_fmap m.
Qed.

Lemma load_jobs_without_list_witness :
  load_jobs sample_runtime (installed empty_object_bytes sample_world)
  = ([Os (EvRead "/opt/monitor/jobs.json")], Ret []) ∧
  load_jobs sample_runtime (installed empty_list_bytes sample_world)
  = ([Os (EvRead "/opt/monitor/jobs.json");
      loading_error (Exception "AttributeError"
                       "'list' object has no attribute 'get'")],
     Ret []).
Proof.
  split.
  - apply (proj1 (load_jobs_without_list sample_runtime
                    (installed empty_object_bytes sample_world)
                    empty_object_bytes (JObject []) eq_refl eq_refl) []);
      reflexivity.
  - apply (proj1 (proj2 (load_jobs_without_list sample_runtime
                           (installed empty_list_bytes sample_world)
                           empty_list_bytes (JArray []) eq_refl eq_refl))).
    discriminate.
Defined.

(** * The command line *)

Section AppRunning.
Context {A B : Type}.

Lemma app_bind_ret (m : App A) (f : A → App B) (w : World) t a :
  m w = (t, Ret a) → (m ≫= f) w = (t ++ (f a w).1, (f a w).2).
Proof.
  intros Hm. unfold mbind, App_MBind, App_bind. rewrite Hm.
  by destruct (f a w).
Qed.

Lemma app_bind_raise (m : App A) (f : A → App B) (w : World) t e :
  m w = (t, Raise e) → (m ≫= f) w = (t, Raise e).
Proof. intros Hm. unfold mbind, App_MBind, App_bind. by rewrite Hm. Qed.

Lemma liftIO_run (m : IO A) (w : World) t r :
  m w = (t, r) → liftIO m w = (Os <$> t, r).
Proof. unfold liftIO. by intros ->. Qed.
End AppRunning.

(** X12: every status has a display and none raises [KeyError]: the text
    is the icon, a space and the name of the status, with the icon and the
    style of the status in the table; ERROR, the one status the table lacks,
    takes the icon and the style of UNKNOWN. *)
Theorem status_display_total (status : JobStatus) :
  ∃ icon sty,
    _get_status_display status
    = Ret (mk_Text (icon +:+ " " +:+ JobStatus_value status) sty) ∧
    if decide (status = ERROR)
    then JOB_STATUS_STYLES !! ERROR = None ∧
         JOB_STATUS_STYLES !! UNKNOWN = Some (icon, sty)
    else JOB_STATUS_STYLES !! status = Some (icon, sty).
Proof.
  pose (entry := dict_get JOB_STATUS_STYLES status
                   (default ("", "") (JOB_STATUS_STYLES !! UNKNOWN))).
  exists entry.1, entry.2. subst entry.
  destruct status; (split; [vm_compute; reflexivity|]); vm_compute; done.
Qed.

Lemma status_display_returns (status : JobStatus) :
  ∃ display, _get_status_display status = Ret display.
Proof. destruct status; by eexists. Qed.

Lemma check_job_run (w : World) (job : Job) :
  check_job job w =
    match get_job_state job w with
    | (t, Ret st) =>
        match _get_status_display (status st) with
        | Ret display => (t, Ret (display, message st))
        | Raise e => (t, Raise e)
        end
    | (t, Raise e) => (t, Raise e)
    end.
Proof.
  unfold check_job, mbind, IO_MBind, IO_bind, IO_of_outcome, JobState_truthy.
  destruct (get_job_state job w) as [t [st|e]]; [|done]. simpl.
  destruct (_get_status_display (status st)); simpl; by rewrite ?app_nil_r.
Qed.

(** X13: [check_job] returns exactly what the resolver found: the display
    of the status of the state and the message of the state, after the same
    calls; its "Could not determine job state" is never the answer for a
    state; and an exception of the resolver passes through. *)
Theorem check_job_follows_state (w : World) (job : Job) (t : list event) :
  (∀ st, get_job_state job w = (t, Ret st) →
         ∃ display, _get_status_display (status st) = Ret display ∧
                    check_job job w = (t, Ret (display, message st))) ∧
  (∀ e, get_job_state job w = (t, Raise e) → check_job job w = (t, Raise e)).
Proof.
  split.
  - intros st Hst. destruct (status_display_returns (status st)) as [display Hd].
    exists display. split; [done|]. rewrite check_job_run, Hst. by rewrite Hd.
  - intros e He. rewrite check_job_run. by rewrite He.
Qed.

Lemma check_job_follows_state_witness :
  check_job backup_job sample_world =
    ([EvSubprocess (pgrep_args "backup_script.py");
      EvGlob "/home/ops/logs/backup-*.log";
      EvStat "/home/ops/logs/backup-1.log";
      EvStat "/home/ops/logs/backup-2.log";
      EvStat "/home/ops/logs/backup-2.log"; EvNow],
     Ret (mk_Text ("ğŸŸ¡" +:+ " " +:+ "STALE") "yellow bold", "Pending")).
Proof.
  destruct (proj1 (check_job_follows_state sample_world backup_job _) _ eq_refl)
    as (display & Hdisplay & Hrun).
  injection Hdisplay as <-. exact Hrun.
Defined.

(** X14: [view_log] opens the pager only on the file the state reports,
    once, after the panel, and its result is that of the call (an exit
    status of any value is ignored, an exception passes through); for a
    state without a file it prints that no log was found. In all, it runs
    no command but the probe of the job and the pager on a newest entry that
    matches the log pattern. *)
Theorem view_log_opens_reported_file
    (w : World) (job : Job) (t : list event) (st : JobState) :
  get_job_state job w = (t, Ret st) →
  (file st = None ∨ file st = Some "" →
   view_log job w = ((Os <$> t) ++ [Console (no_log_message job)], Ret ())) ∧
  (∀ path, file st = Some path → path ≠ "" →
           view_log job w =
             ((Os <$> t) ++ [Console (viewing_panel job path);
                             Os (EvSubprocess (less_args path))],
              match subprocess_call w (less_args path) with
              | Ret _ => Ret ()
              | Raise e => Raise e
              end)) ∧
  (∀ args, Os (EvSubprocess args) ∈ (view_log job w).1 →
           args = pgrep_args (process_pattern job) ∨
           ∃ path, args = less_args path ∧ latest_of w (matching w job) path).
Proof.
  intros Hst.
  assert (file st = None ∨ file st = Some "" →
          view_log job w = ((Os <$> t) ++ [Console (no_log_message job)], Ret ()))
    as Hnone.
  { unfold view_log.
    rewrite (app_bind_ret _ _ _ _ _ (liftIO_run _ _ _ _ Hst)).
    by intros [-> | ->]. }
  assert (∀ path, file st = Some path → path ≠ "" →
           view_log job w =
             ((Os <$> t) ++ [Console (viewing_panel job path);
                             Os (EvSubprocess (less_args path))],
              match subprocess_call w (less_args path) with
              | Ret _ => Ret ()
              | Raise e => Raise e
              end)) as Hsome.
  { unfold view_log.
    rewrite (app_bind_ret _ _ _ _ _ (liftIO_run _ _ _ _ Hst)).
    intros path -> Hne. destruct path as [|c s]; [done|].
    unfold mbind, App_MBind, App_bind, console_print, liftIO,
      subprocess_call_tty, ask, viewing_panel, less_args. simpl.
    by destruct (subprocess_call w _). }
  split; [done|]. split; [done|].
  assert (∀ args, Os (EvSubprocess args) ∈ Os <$> t →
                  args = pgrep_args (process_pattern job)) as Hprobe.
  { intros args (ev & [= <-] & Hev)%list_elem_of_fmap.
    destruct (get_job_state_trace_shape _ _ _ _ Hst _ Hev)
      as [Heq|[?|[(? & ? & _)|[?|(? & ? & _)]]]]; try done.
    by injection Heq. }
  intros args.
  destruct (file st) as [path|] eqn:Hfile.
  - destruct (decide (path = "")) as [->|Hne].
    + rewrite Hnone by by right. simpl.
      intros [Hev|Hev]%elem_of_app; [left; by apply Hprobe|].
      by apply list_elem_of_singleton in Hev.
    + rewrite (Hsome path) by done. simpl.
      intros [Hev|Hev]%elem_of_app; [left; by apply Hprobe|].
      apply elem_of_cons in Hev as [Hev|Hev]; [done|].
      apply list_elem_of_singleton in Hev. injection Hev as ->.
      right. exists path. split; [done|].
      by eapply get_job_state_file_latest.
  - rewrite Hnone by by left. simpl.
    intros [Hev|Hev]%elem_of_app; [left; by apply Hprobe|].
    by apply list_elem_of_singleton in Hev.
Qed.

Lemma view_log_opens_reported_file_witness :
  view_log report_job sample_world =
    ([Os (EvSubprocess (pgrep_args "generate_report"));
      Os (EvGlob "/home/ops/logs/report-*.log");
      Console (no_log_message report_job)], Ret ()) ∧
  view_log backup_job sample_world =
    ([Os (EvSubprocess (pgrep_args "backup_script.py"));
      Os (EvGlob "/home/ops/logs/backup-*.log");
      Os (EvStat "/home/ops/logs/backup-1.log");
      Os (EvStat "/home/ops/logs/backup-2.log");
      Os (EvStat "/home/ops/logs/backup-2.log"); Os EvNow;
      Console (viewing_panel backup_job "/home/ops/logs/backup-2.log");
      Os (EvSubprocess (less_args "/home/ops/logs/backup-2.log"))], Ret ()).
Proof.
  split.
  - apply (proj1 (view_log_opens_reported_file sample_world report_job _ _ eq_refl)).
    by left.
  - apply (proj1 (proj2 (view_log_opens_reported_file sample_world backup_job _ _
                           eq_refl))
             "/home/ops/logs/backup-2.log"); [reflexivity|discriminate].
Defined.

Lemma table_rows_run (w : World) (jobs : list Job) :
  (∀ job, job ∈ jobs → ∃ t st, get_job_state job w = (t, Ret st)) →
  ∀ k, ∃ rows, table_rows k jobs w = (traces_of w jobs, Ret rows) ∧
               rows_for w k jobs rows.
Proof.
  induction jobs as [|job rest IH]; intros Hall k.
  - by exists [].
  - destruct (Hall job) as (t & st & Hst); [by left|].
    destruct (status_display_returns (status st)) as [display Hd].
    destruct (IH (λ j Hj, Hall j (list_elem_of_further _ _ _ Hj)) (k + 1))
      as (rows & Hrows & Hfor).
    exists (row_of k job st display :: rows). split.
    + cbn [table_rows].
      assert (check_job job w = (t, Ret (display, message st))) as Hcheck
        by (rewrite check_job_run, Hst; by rewrite Hd).
      rewrite (run_bind_ret _ _ _ _ _ Hcheck). cbv beta.
      rewrite (run_bind_ret _ _ _ _ _ Hrows). simpl.
      unfold traces_of. simpl. rewrite Hst. simpl. by rewrite app_nil_r.
    + simpl. split; [|done]. by exists t, st, display.
Qed.

Lemma rows_for_lookup (w : World) (jobs : list Job) :
  ∀ k rows, rows_for w k jobs rows →
  length rows = length jobs ∧
  ∀ i job, jobs !! i = Some job →
    ∃ t st display,
      get_job_state job w = (t, Ret st) ∧
      _get_status_display (status st) = Ret display ∧
      rows !! i = Some (row_of (k + Z.of_nat i) job st display).
Proof.
  induction jobs as [|job rest IH]; intros k rows Hfor.
  - destruct rows; [|done]. split; [done|]. by intros i job' Hi.
  - destruct rows as [|row rows]; [done|]. destruct Hfor as [Hrow Hrest].
    destruct (IH _ _ Hrest) as [Hlen Hlook]. split; [simpl; by rewrite Hlen|].
    intros [|i] job' Hi.
    + injection Hi as <-. destruct Hrow as (t & st & display & Hst & Hd & ->).
      exists t, st, display. rewrite Z.add_0_r. done.
    + destruct (Hlook i job' Hi) as (t & st & display & Hst & Hd & Hrow').
      exists t, st, display. split; [done|]. split; [done|].
      simpl. rewrite Hrow'. do 2 f_equal. lia.
Qed.

(** X15: without an [id], and with the [id] 0, [main] prints one table
    after it evaluated every loaded job once, in the order of the file: the
    table has a row per job, the row of the job at index [i] is numbered
    [i + 1] and shows the display of its status, its name and its message.
    This holds when the resolver returns for every job; nothing else is
    printed after the loading. *)
Theorem main_prints_table
    (rt : Runtime) (w : World) (args_id : option Z)
    (tl : list app_event) (jobs : list Job) :
  args_id = None ∨ args_id = Some 0 →
  load_jobs rt w = (tl, Ret jobs) →
  (∀ job, job ∈ jobs → ∃ t st, get_job_state job w = (t, Ret st)) →
  ∃ rows,
    main rt args_id w
    = (tl ++ (Os <$> traces_of w jobs) ++ [Console (status_table rows)], Ret ()) ∧
    length rows = length jobs ∧
    ∀ i job, jobs !! i = Some job →
      ∃ t st display,
        get_job_state job w = (t, Ret st) ∧
        _get_status_display (status st) = Ret display ∧
        rows !! i = Some (row_of (1 + Z.of_nat i) job st display).
Proof.
  intros Hid Hload Hall.
  destruct (table_rows_run w jobs Hall 1) as (rows & Hrows & Hfor).
  exists rows. split; [|by apply rows_for_lookup].
  assert (print_status_table jobs w
          = ((Os <$> traces_of w jobs) ++ [Console (status_table rows)], Ret ()))
    as Htable.
  { unfold print_status_table.
    by rewrite (app_bind_ret _ _ _ _ _ (liftIO_run _ _ _ _ Hrows)). }
  unfold main. rewrite (app_bind_ret _ _ _ _ _ Hload).
  destruct Hid as [-> | ->]; simpl; by rewrite Htable.
Qed.

Lemma main_prints_table_witness :
  ∃ rows,
    main sample_runtime (Some 0) (installed sample_config_bytes sample_world)
    = ([Os (EvRead "/opt/monitor/jobs.json")]
       ++ (Os <$> traces_of (installed sample_config_bytes sample_world)
                    [backup_job; report_job])
       ++ [Console (status_table rows)], Ret ()) ∧
    length rows = 2%nat.
Proof.
  destruct (main_prints_table sample_runtime
              (installed sample_config_bytes sample_world) (Some 0)
              [Os (EvRead "/opt/monitor/jobs.json")] [backup_job; report_job])
    as (rows & Hrun & Hlen & _).
  - by right.
  - reflexivity.
  - intros job Hjob.
    repeat (apply elem_of_cons in Hjob as [->|Hjob]; [by eexists _, _|]).
    by apply elem_of_nil in Hjob.
  - exists rows. by split.
Defined.

Lemma list_getitem_spec {A} (l : list A) (i : Z) :
  let n := Z.of_nat (length l) in
  (0 ≤ i < n → ∀ x, l !! Z.to_nat i = Some x → list_getitem l i = Ret x) ∧
  (- n ≤ i < 0 → ∀ x, l !! Z.to_nat (n + i) = Some x → list_getitem l i = Ret x) ∧
  (n ≤ i ∨ i < - n →
   list_getitem l i = Raise (Exception "IndexError" "list index out of range")).
Proof.
  intros n. unfold list_getitem. fold n. split; [|split].
  - intros Hi x Hx. destruct (Z.ltb_spec i 0); [lia|].
    destruct (Z.leb_spec 0 i); [|lia]. destruct (Z.ltb_spec i n); [|lia].
    simpl. by rewrite Hx.
  - intros Hi x Hx. destruct (Z.ltb_spec i 0); [|lia].
    destruct (Z.leb_spec 0 (i + n)); [|lia]. destruct (Z.ltb_spec (i + n) n); [|lia].
    simpl. replace (i + n) with (n + i) by lia. by rewrite Hx.
  - intros Hi. destruct (Z.ltb_spec i 0).
    + destruct (Z.leb_spec 0 (i + n)); [|done].
      destruct (Z.ltb_spec (i + n) n); [lia|done].
    + destruct (Z.leb_spec 0 i); [|done].
      destruct (Z.ltb_spec i n); [lia|done].
Qed.

(** X16: with an [id] other than 0, [main] views the log of one job or
    fails. An [id] from 1 to the number of jobs views the job at index
    [id - 1], the one the table shows under that number; a negative [id]
    above minus the number of jobs counts from the end, as the index
    [id - 1] of a Python list does; any other [id] raises [IndexError]
    right after the loading, before any job is evaluated. *)
Theorem main_views_numbered_job
    (rt : Runtime) (w : World) (id : Z) (tl : list app_event) (jobs : list Job) :
  id ≠ 0 →
  load_jobs rt w = (tl, Ret jobs) →
  let n := Z.of_nat (length jobs) in
  (∀ job, 1 ≤ id ≤ n → jobs !! Z.to_nat (id - 1) = Some job →
          main rt (Some id) w = (tl ++ (view_log job w).1, (view_log job w).2)) ∧
  (∀ job, - n < id < 0 → jobs !! Z.to_nat (n + id - 1) = Some job →
          main rt (Some id) w = (tl ++ (view_log job w).1, (view_log job w).2)) ∧
  (n < id ∨ id ≤ - n →
   main rt (Some id) w
   = (tl, Raise (Exception "IndexError" "list index out of range"))).
Proof.
  intros Hid Hload n.
  assert (∀ r, list_getitem jobs (id - 1) = r →
               main rt (Some id) w =
                 match r with
                 | Ret job => (tl ++ (view_log job w).1, (view_log job w).2)
                 | Raise e => (tl, Raise e)
                 end) as Hmain.
  { intros r Hr. unfold main. rewrite (app_bind_ret _ _ _ _ _ Hload).
    destruct (Z.eqb_spec id 0) as [|_]; [done|]. cbn [negb].
    unfold mbind, App_MBind, App_bind, App_of_outcome. rewrite Hr.
    destruct r as [job|e]; simpl; [|by rewrite app_nil_r].
    by destruct (view_log job w). }
  destruct (list_getitem_spec jobs (id - 1)) as (Hpos & Hneg & Hout). fold n in Hpos, Hneg, Hout.
  split; [|split].
  - intros job Hrange Hjob. rewrite (Hmain (Ret job)); [done|].
    apply Hpos; [lia|done].
  - intros job Hrange Hjob. rewrite (Hmain (Ret job)); [done|].
    apply Hneg; [lia|]. by replace (n + (id - 1)) with (n + id - 1) by lia.
  - intros Hrange. rewrite (Hmain (Raise _) (Hout ltac:(lia))). done.
Qed.

Lemma main_views_numbered_job_witness :
  main sample_runtime (Some 2) (installed sample_config_bytes sample_world)
  = ([Os (EvRead "/opt/monitor/jobs.json");
      Os (EvSubprocess (pgrep_args "generate_report"));
      Os (EvGlob "/home/ops/logs/report-*.log");
      Console (no_log_message report_job)], Ret ()) ∧
  main sample_runtime (Some 3) (installed sample_config_bytes sample_world)
  = ([Os (EvRead "/opt/monitor/jobs.json")],
     Raise (Exception "IndexError" "list index out of range")) ∧
  main sample_runtime (Some (-1)) (installed sample_config_bytes sample_world)
  = ([Os (EvRead "/opt/monitor/jobs.json")]
     ++ (view_log backup_job (installed sample_config_bytes sample_world)).1,
     (view_log backup_job (installed sample_config_bytes sample_world)).2).
Proof.
  split; [|split].
  - apply (proj1 (main_views_numbered_job sample_runtime
                    (installed sample_config_bytes sample_world) 2
                    [Os (EvRead "/opt/monitor/jobs.json")]
                    [backup_job; report_job] ltac:(discriminate) eq_refl)
             report_job); [simpl; lia|reflexivity].
  - apply (proj2 (proj2 (main_views_numbered_job sample_runtime
                    (installed sample_config_bytes sample_world) 3
                    [Os (EvRead "/opt/monitor/jobs.json")]
                    [backup_job; report_job] ltac:(discriminate) eq_refl))).
    simpl. lia.
  - apply (proj1 (proj2 (main_views_numbered_job sample_runtime
                    (installed sample_config_bytes sample_world) (-1)
                    [Os (EvRead "/opt/monitor/jobs.json")]
                    [backup_job; report_job] ltac:(discriminate) eq_refl))
             backup_job); [simpl; lia|reflexivity].
Defined.

(** * The tray *)

(** ** The icon of the tray *)

Lemma in_FAIL_STATUSES (s : JobStatus) :
  bool_decide (s ∈ FAIL_STATUSES) = true ↔ failing s.
Proof.
  unfold failing. destruct s; vm_compute; split; intros H; try done;
    try (by auto); by destruct H as [?|[?|?]].
Qed.

Lemma in_WARN_STATUSES (s : JobStatus) :
  bool_decide (s ∈ WARN_STATUSES) = true ↔ warning s.
Proof.
  unfold warning. destruct s; vm_compute; split; intros H; try done;
    try (by auto); by destruct H as [?|[?|?]].
Qed.

Lemma status_kinds (s : JobStatus) : failing s ∨ warning s ∨ healthy s.
Proof. unfold failing, warning, healthy. destruct s; auto 10. Qed.

Lemma status_kinds_disjoint (s : JobStatus) :
  ¬ (failing s ∧ warning s) ∧ ¬ (failing s ∧ healthy s) ∧ ¬ (warning s ∧ healthy s).
Proof.
  unfold failing, warning, healthy.
  destruct s; intuition congruence.
Qed.

Lemma any_failing (statuses : list JobStatus) :
  existsb (λ status, bool_decide (status ∈ FAIL_STATUSES)) statuses = true ↔
  ∃ s, s ∈ statuses ∧ failing s.
Proof.
  rewrite existsb_exists. setoid_rewrite in_FAIL_STATUSES.
  by setoid_rewrite list_elem_of_In.
Qed.

Lemma any_warning (statuses : list JobStatus) :
  existsb (λ status, bool_decide (status ∈ WARN_STATUSES)) statuses = true ↔
  ∃ s, s ∈ statuses ∧ warning s.
Proof.
  rewrite existsb_exists. setoid_rewrite in_WARN_STATUSES.
  by setoid_rewrite list_elem_of_In.
Qed.

(** The three answers of [_get_global_app_status], with their reasons. *)
Lemma global_status_cases (statuses : list JobStatus) :
  ((∃ s, s ∈ statuses ∧ failing s) ∧
   _get_global_app_status statuses = (TRAY_ICON_FAIL, "Job failure detected")) ∨
  ((∀ s, s ∈ statuses → ¬ failing s) ∧ (∃ s, s ∈ statuses ∧ warning s) ∧
   _get_global_app_status statuses = (TRAY_ICON_WARN, "Warnings present")) ∨
  ((∀ s, s ∈ statuses → healthy s) ∧
   _get_global_app_status statuses = (TRAY_ICON_SUCCESS, "All systems operational")).
Proof.
  unfold _get_global_app_status.
  pose proof (any_failing statuses) as Hfail.
  pose proof (any_warning statuses) as Hwarn.
  destruct (existsb (λ status, bool_decide (status ∈ FAIL_STATUSES)) statuses).
  { left. split; [by apply Hfail|done]. }
  assert (∀ s, s ∈ statuses → ¬ failing s) as Hno.
  { intros s Hs Hsf. assert (false = true) by (apply Hfail; eauto). done. }
  destruct (existsb (λ status, bool_decide (status ∈ WARN_STATUSES)) statuses).
  { right; left. split; [done|]. split; [by apply Hwarn|done]. }
  assert (∀ s, s ∈ statuses → ¬ warning s) as Hnow.
  { intros s Hs Hsw. assert (false = true) by (apply Hwarn; eauto). done. }
  right; right. split; [|done]. intros s Hs.
  destruct (status_kinds s) as [?|[?|?]]; [by destruct (Hno s Hs)| |done].
  by destruct (Hnow s Hs).
Qed.

Lemma global_icon_fail_iff (statuses : list JobStatus) :
  global_icon statuses = TRAY_ICON_FAIL ↔ ∃ s, s ∈ statuses ∧ failing s.
Proof.
  unfold global_icon.
  destruct (global_status_cases statuses)
    as [[Hf ->]|[(Hno & _ & ->)|[Hall ->]]]; simpl.
  - done.
  - split; [done|]. intros (s & Hs & Hsf). by destruct (Hno s Hs).
  - split; [done|]. intros (s & Hs & Hsf).
    by destruct (proj1 (proj2 (status_kinds_disjoint s)) (conj Hsf (Hall s Hs))).
Qed.

Lemma global_icon_success_iff (statuses : list JobStatus) :
  global_icon statuses = TRAY_ICON_SUCCESS ↔ ∀ s, s ∈ statuses → healthy s.
Proof.
  unfold global_icon.
  destruct (global_status_cases statuses)
    as [[(s & Hs & Hsf) ->]|[(_ & (s & Hs & Hsw) & ->)|[Hall ->]]]; simpl.
  - split; [done|]. intros Hall.
    by destruct (proj1 (proj2 (status_kinds_disjoint s)) (conj Hsf (Hall s Hs))).
  - split; [done|]. intros Hall.
    by destruct (proj2 (proj2 (status_kinds_disjoint s)) (conj Hsw (Hall s Hs))).
  - done.
Qed.

(** X17: the worst status decides the icon of the tray. It is the
    failure icon exactly when some status is FAILED, CRASHED or ERROR; the
    warning icon exactly when none is but some status is STALE, MISSING or
    UNKNOWN; and the success icon exactly when every status is SUCCESS or
    RUNNING, as for no job at all. The description goes with the icon. *)
Theorem global_status_worst_wins (statuses : list JobStatus) :
  (global_icon statuses = TRAY_ICON_FAIL ↔ ∃ s, s ∈ statuses ∧ failing s) ∧
  (global_icon statuses = TRAY_ICON_WARN ↔
     (∀ s, s ∈ statuses → ¬ failing s) ∧ ∃ s, s ∈ statuses ∧ warning s) ∧
  (global_icon statuses = TRAY_ICON_SUCCESS ↔ ∀ s, s ∈ statuses → healthy s) ∧
  (_get_global_app_status statuses = (TRAY_ICON_FAIL, "Job failure detected") ∨
   _get_global_app_status statuses = (TRAY_ICON_WARN, "Warnings present") ∨
   _get_global_app_status statuses = (TRAY_ICON_SUCCESS, "All systems operational")).
Proof.
  split; [apply global_icon_fail_iff|].
  split; [|split; [apply global_icon_success_iff|]].
  - unfold global_icon.
    destruct (global_status_cases statuses)
      as [[(s & Hs & Hsf) ->]|[(Hno & Hw & ->)|[Hall ->]]]; simpl.
    + split; [done|]. intros [Hno _]. by destruct (Hno s Hs).
    + done.
    + split; [done|]. intros [_ (s & Hs & Hsw)].
      by destruct (proj2 (proj2 (status_kinds_disjoint s)) (conj Hsw (Hall s Hs))).
  - destruct (global_status_cases statuses)
      as [[_ ->]|[(_ & _ & ->)|[_ ->]]]; auto.
Qed.

(** X18: the icon of the tray does not depend on the order of the jobs,
    and a list of statuses put after another one can only worsen it: the
    two together fail exactly when one of them fails, and are healthy
    exactly when both are. *)
Theorem global_status_of_parts (l1 l2 : list JobStatus) :
  (∀ l, l ≡ₚ l1 → _get_global_app_status l = _get_global_app_status l1) ∧
  (global_icon (l1 ++ l2) = TRAY_ICON_FAIL ↔
     global_icon l1 = TRAY_ICON_FAIL ∨ global_icon l2 = TRAY_ICON_FAIL) ∧
  (global_icon (l1 ++ l2) = TRAY_ICON_SUCCESS ↔
     global_icon l1 = TRAY_ICON_SUCCESS ∧ global_icon l2 = TRAY_ICON_SUCCESS).
Proof.
  split; [|split].
  - intros l Hperm. unfold _get_global_app_status.
    assert (∀ p : JobStatus → bool, existsb p l = existsb p l1) as Hex.
    { intros p. apply eq_true_iff_eq. rewrite !existsb_exists.
      setoid_rewrite <- list_elem_of_In. by setoid_rewrite Hperm. }
    by rewrite !Hex.
  - rewrite !global_icon_fail_iff.
    setoid_rewrite elem_of_app. split.
    + intros (s & [Hs|Hs] & Hf); [left|right]; eauto.
    + intros [(s & Hs & Hf)|(s & Hs & Hf)]; exists s; auto.
  - rewrite !global_icon_success_iff.
    setoid_rewrite elem_of_app. split.
    + intros Hall. split; intros s Hs; apply Hall; auto.
    + intros [H1 H2] s [Hs|Hs]; auto.
Qed.

(** ** The sections of the menu *)

Lemma setdefault_append_keys (groups : list (JobFrequency * list Job)) (job : Job) :
  (setdefault_append groups job).*1 =
    if decide (frequency job ∈ groups.*1) then groups.*1
    else groups.*1 ++ [frequency job].
Proof.
  induction groups as [|[key members] rest IH].
  - cbn. case_decide as Hin; [by apply elem_of_nil in Hin|done].
  - cbn [setdefault_append].
    destruct (decide (key = frequency job)) as [->|Hne].
    + clear IH. cbn. case_decide as Hin; [done|]. destruct Hin. apply list_elem_of_here.
    + cbn [fmap list_fmap fst]. rewrite IH. clear IH.
      destruct (decide (frequency job ∈ rest.*1)) as [Hin|Hnin].
      * case_decide as Hin'; [done|]. destruct Hin'. by apply list_elem_of_further.
      * case_decide as Hin'; [|done].
        apply elem_of_cons in Hin' as [Heq|Hin']; [by destruct Hne|done].
Qed.

Lemma setdefault_append_lookup
    (groups : list (JobFrequency * list Job)) (job : Job) (f : JobFrequency) :
  group_lookup (setdefault_append groups job) f =
    group_lookup groups f ++ (if decide (f = frequency job) then [job] else []).
Proof.
  induction groups as [|[key members] rest IH].
  - cbn. repeat case_decide; congruence.
  - cbn [setdefault_append].
    destruct (decide (key = frequency job)) as [->|Hne]; cbn [group_lookup].
    + repeat case_decide; try congruence. by rewrite app_nil_r.
    + destruct (decide (key = f)) as [->|Hne'].
      * case_decide; [congruence|]. by rewrite app_nil_r.
      * apply IH.
Qed.

Lemma setdefault_append_concat (groups : list (JobFrequency * list Job)) (job : Job) :
  concat (setdefault_append groups job).*2 ≡ₚ concat groups.*2 ++ [job].
Proof.
  induction groups as [|[key members] rest IH]; simpl; [done|].
  destruct (decide (key = frequency job)) as [->|Hne]; simpl.
  - rewrite <- !app_assoc. f_equiv. apply Permutation_app_comm.
  - rewrite IH. by rewrite app_assoc.
Qed.

Lemma first_occurrences_snoc {A} `{EqDecision A} (l : list A) (x : A) :
  first_occurrences (l ++ [x]) =
    if decide (x ∈ first_occurrences l) then first_occurrences l
    else first_occurrences l ++ [x].
Proof. unfold first_occurrences. by rewrite foldl_snoc. Qed.

Lemma first_occurrences_spec {A} `{EqDecision A} (l : list A) :
  NoDup (first_occurrences l) ∧ ∀ x, x ∈ first_occurrences l ↔ x ∈ l.
Proof.
  induction l as [|x l IH] using rev_ind.
  - split; [constructor|done].
  - destruct IH as [IHnd IHin]. rewrite first_occurrences_snoc.
    destruct (decide (x ∈ first_occurrences l)) as [Hin|Hnin].
    + split; [done|]. intros y. rewrite elem_of_app, list_elem_of_singleton, IHin.
      split; [by left|]. intros [Hy| ->]; [done|]. by apply IHin.
    + split.
      * apply NoDup_app. split; [done|]. split; [|apply NoDup_singleton].
        intros y Hy ->%list_elem_of_singleton. done.
      * intros y. rewrite !elem_of_app, !list_elem_of_singleton, IHin. done.
Qed.

Lemma group_keys (jobs : list Job) :
  (_group_jobs_by_frequency jobs).*1 = first_occurrences (frequency <$> jobs).
Proof.
  unfold _group_jobs_by_frequency.
  induction jobs as [|job jobs IH] using rev_ind; [done|].
  rewrite foldl_snoc, fmap_app.
  change (frequency <$> [job]) with [frequency job].
  by rewrite first_occurrences_snoc, setdefault_append_keys, IH.
Qed.

Lemma group_members (jobs : list Job) (f : JobFrequency) :
  group_lookup (_group_jobs_by_frequency jobs) f
  = filter (λ job, frequency job = f) jobs.
Proof.
  unfold _group_jobs_by_frequency.
  induction jobs as [|job jobs IH] using rev_ind; [done|].
  rewrite foldl_snoc, setdefault_append_lookup, IH, filter_app. f_equal.
  destruct (decide (f = frequency job)) as [->|Hne].
  - by rewrite filter_cons_True.
  - by rewrite filter_cons_False by done.
Qed.

Lemma group_lookup_elem (groups : list (JobFrequency * list Job)) f members :
  NoDup groups.*1 → (f, members) ∈ groups → group_lookup groups f = members.
Proof.
  induction groups as [|[key ms] rest IH]; intros Hnd Hin; [by apply elem_of_nil in Hin|].
  simpl in *. apply NoDup_cons in Hnd as [Hkey Hnd].
  apply elem_of_cons in Hin as [[= <- <-]|Hin].
  - by rewrite decide_True.
  - rewrite decide_False; [by apply IH|].
    intros ->. apply Hkey. apply list_elem_of_fmap. by exists (f, members).
Qed.

(** X19: the dictionary of the groups has one key for every frequency
    that some job has, in the order the frequencies first occur in the list
    of jobs, and no key twice; the group under a key is never empty: it
    holds the jobs of that frequency, all of them, in the order of the
    list. *)
Theorem group_jobs_by_frequency_partition (jobs : list Job) :
  let groups := _group_jobs_by_frequency jobs in
  groups.*1 = first_occurrences (frequency <$> jobs) ∧
  NoDup groups.*1 ∧
  (∀ f members, (f, members) ∈ groups →
                members = filter (λ job, frequency job = f) jobs ∧ members ≠ []) ∧
  (∀ job, job ∈ jobs → ∃ members, (frequency job, members) ∈ groups ∧ job ∈ members).
Proof.
  intros groups. subst groups.
  destruct (first_occurrences_spec (frequency <$> jobs)) as [Hnd Hin].
  rewrite <- group_keys in Hnd, Hin.
  split; [apply group_keys|]. split; [done|]. split.
  - intros f members Hmem.
    pose proof (group_lookup_elem _ _ _ Hnd Hmem) as Hlook.
    rewrite group_members in Hlook. split; [done|].
    assert (f ∈ (_group_jobs_by_frequency jobs).*1) as Hkey
      by (apply list_elem_of_fmap; by exists (f, members)).
    apply Hin, list_elem_of_fmap in Hkey as (job & -> & Hjob).
    intros ->.
    assert (job ∈ filter (λ j, frequency j = frequency job) jobs) as Hf
      by by apply list_elem_of_filter.
    rewrite Hlook in Hf. by apply elem_of_nil in Hf.
  - intros job Hjob.
    assert (frequency job ∈ (_group_jobs_by_frequency jobs).*1) as Hkey
      by (apply Hin, list_elem_of_fmap; by exists job).
    apply list_elem_of_fmap in Hkey as ([f members] & Hf & Hmem). simpl in Hf. subst f.
    exists members. split; [done|].
    rewrite <- (group_lookup_elem _ _ _ Hnd Hmem), group_members.
    by apply list_elem_of_filter.
Qed.

(** X20: grouping loses no job and makes none up: the groups, one after
    the other, are a permutation of the list of jobs; and there are at most
    three of them. *)
Theorem group_jobs_by_frequency_permutation (jobs : list Job) :
  concat (_group_jobs_by_frequency jobs).*2 ≡ₚ jobs ∧
  (length (_group_jobs_by_frequency jobs) ≤ 3)%nat.
Proof.
  split.
  - unfold _group_jobs_by_frequency.
    induction jobs as [|job jobs IH] using rev_ind; [done|].
    by rewrite foldl_snoc, setdefault_append_concat, IH.
  - destruct (first_occurrences_spec (frequency <$> jobs)) as [Hnd _].
    rewrite <- group_keys in Hnd.
    rewrite <- (length_fmap fst).
    change 3%nat with (length [DAILY; WEEKLY; MONTHLY]).
    apply submseteq_length, NoDup_submseteq; [done|].
    intros [] _; set_solver.
Qed.

(** ** The rows of the menu *)

Lemma JOB_STATUS_ICONS_total (s : JobStatus) (fallback : string) :
  ∃ icon, JOB_STATUS_ICONS !! s = Some icon ∧
          dict_get JOB_STATUS_ICONS s fallback = icon.
Proof. destruct s; by eexists. Qed.

Lemma JobRow_update_run (rt : Runtime) (row : JobRow) (st : JobState) :
  ∃ icon row',
    JOB_STATUS_ICONS !! status st = Some icon ∧
    JobRow_update rt row st = Ret (row', status st) ∧
    row_job row' = row_job row ∧
    root_label row' = icon +:+ " " +:+ name (row_job row) ∧
    message_label row' = "Status: " +:+ message st ∧
    (time_visible row' = true ↔ is_Some (last_modification_time st)) ∧
    (time_visible row' = false → time_label row' = time_label row) ∧
    (log_visible row' = false ↔ file st = None ∨ file st = Some "").
Proof.
  unfold JobRow_update.
  assert (dict_getitem JOB_STATUS_ICONS UNKNOWN = Ret "⚪") as -> by reflexivity.
  destruct (JOB_STATUS_ICONS_total (status st) "⚪") as (icon & Hicon & ->).
  exists icon. eexists. split; [done|]. split; [done|]. simpl.
  split; [done|]. split; [done|]. split; [done|]. split; [|split].
  - destruct (last_modification_time st); split; by eauto.
  - by destruct (last_modification_time st).
  - destruct (file st) as [[|c s]|]; split; try (by auto); intros [?|?]; done.
Qed.

Lemma get_job_state_file_absent (w : World) (job : Job) t st :
  get_job_state job w = (t, Ret st) →
  (file st = None ∨ file st = Some "" → status st = MISSING ∨ status st = RUNNING) ∧
  (status st = MISSING → file st = None).
Proof.
  intros Hrun.
  apply get_job_state_cases in Hrun
    as (tp & running & tl & latest & _ & _ &
        [(_ & _ & ->) | [(_ & _ & _ & ->) |
         (_ & path & mt & dt & fresh & _ & Hne & _ & _ & _ &
          [(_ & _ & ->) | (_ & _ & Han)])]]); simpl.
  - split; [by right|done].
  - split; [by left|done].
  - split; [|done]. intros [?|[= ?]]; done.
  - pose proof (_analyze_log_file_file _ _ _ _ _ Han) as Hfile. rewrite Hfile.
    split; [intros [?|[= ?]]; done|].
    apply _analyze_log_file_inv in Han
      as [_ [(e & _ & ->) | (bs & _ & [(_ & ->) | [(_ & _ & ->) |
           [(_ & _ & _ & ->) | (_ & _ & _ & ->)]]])]]; done.
Qed.

(** X21: what a row shows after [update] with the state of its job. The
    call never raises and returns the status of the state; the row keeps
    its job, is labelled with the icon of the status and the name of the
    job, and shows the message; the time is visible exactly for STALE,
    SUCCESS, FAILED, CRASHED and UNKNOWN, and a hidden time keeps its old
    text; "Open log file" is hidden for every MISSING state and for no
    state but MISSING and RUNNING. *)
Theorem row_shows_state
    (rt : Runtime) (w : World) (row : JobRow) (t : list event) (st : JobState) :
  get_job_state (row_job row) w = (t, Ret st) →
  ∃ icon row',
    JOB_STATUS_ICONS !! status st = Some icon ∧
    JobRow_update rt row st = Ret (row', status st) ∧
    row_job row' = row_job row ∧
    root_label row' = icon +:+ " " +:+ name (row_job row) ∧
    message_label row' = "Status: " +:+ message st ∧
    (time_visible row' = true ↔ status st ∈ timed_statuses) ∧
    (time_visible row' = false → time_label row' = time_label row) ∧
    (log_visible row' = false → status st = MISSING ∨ status st = RUNNING) ∧
    (status st = MISSING → log_visible row' = false).
Proof.
  intros Hst.
  destruct (JobRow_update_run rt row st)
    as (icon & row' & Hicon & Hrun & Hjob & Hroot & Hmsg & Htime & Hkeep & Hlog).
  destruct (get_job_state_timed _ _ _ _ Hst) as [Htimed _].
  destruct (get_job_state_file_absent _ _ _ _ Hst) as [Habsent Hmissing].
  exists icon, row'. split; [done|]. split; [done|]. split; [done|].
  split; [done|]. split; [done|]. split; [by rewrite Htime|].
  split; [done|]. split.
  - intros Hhidden. by apply Habsent, Hlog.
  - intros Hm. apply Hlog. left. by apply Hmissing.
Qed.

Lemma row_shows_state_witness :
  ∃ icon row',
    JOB_STATUS_ICONS !! STALE = Some icon ∧
    JobRow_update sample_runtime
      (mk_JobRow backup_job "Initializing Daily Backup" "Checking" "Time: --" false false)
      (mk_JobState STALE "Pending" (Some "/home/ops/logs/backup-2.log")
         (Some (mk_datetime 2026 1 31 12 0 0 0)))
    = Ret (row', STALE) ∧
    message_label row' = "Status: Pending".
Proof.
  destruct (row_shows_state sample_runtime sample_world
              (mk_JobRow backup_job "Initializing Daily Backup" "Checking"
                 "Time: --" false false) _ _ eq_refl)
    as (icon & row' & Hicon & Hrun & _ & _ & Hmsg & _).
  exists icon, row'. by repeat split.
Defined.

(** ** The refresh *)

Lemma update_rows_ok (rt : Runtime) (w : World) (rows : list JobRow) :
  (∀ row, row ∈ rows → ∃ t st, get_job_state (row_job row) w = (t, Ret st)) →
  ∃ rows' statuses,
    update_rows rt rows w
    = (traces_of w (row_job <$> rows), (rows', Ret statuses)) ∧
    refreshed rt w rows rows' statuses.
Proof.
  induction rows as [|row rest IH]; intros Hall.
  - by exists [], [].
  - destruct (Hall row) as (t & st & Hst); [by left|].
    destruct (JobRow_update_run rt row st) as (icon & row' & _ & Hup & _).
    destruct (IH (λ r Hr, Hall r (list_elem_of_further _ _ _ Hr)))
      as (rows' & statuses & Hrest & Hfor).
    exists (row' :: rows'), (status st :: statuses). split.
    + cbn [update_rows]. rewrite Hst, Hup, Hrest.
      unfold traces_of. simpl. by rewrite Hst.
    + simpl. split; [|done]. by exists t, st.
Qed.

Lemma refreshed_spec (rt : Runtime) (w : World) (rows : list JobRow) :
  ∀ rows' statuses, refreshed rt w rows rows' statuses →
  row_job <$> rows' = row_job <$> rows ∧
  length statuses = length rows ∧
  ∀ s, s ∈ statuses ↔
       ∃ row t st, row ∈ rows ∧ get_job_state (row_job row) w = (t, Ret st) ∧
                   status st = s.
Proof.
  induction rows as [|row rest IH]; intros rows' statuses Hfor.
  - destruct rows', statuses; try done. split; [done|]. split; [done|].
    intros s. split; [by intros ?%elem_of_nil|].
    by intros (row & _ & _ & ?%elem_of_nil & _).
  - destruct rows' as [|row' rows'], statuses as [|s0 statuses]; try done.
    destruct Hfor as [(t & st & Hst & Hup) Hrest].
    destruct (IH _ _ Hrest) as (Hjobs & Hlen & Hin).
    destruct (JobRow_update_run rt row st) as (icon & row2 & _ & Hup2 & Hjob & _).
    rewrite Hup in Hup2. injection Hup2 as <- ->.
    split; [by rewrite !fmap_cons, Hjob, Hjobs|]. split; [simpl; by rewrite Hlen|].
    intros s. rewrite elem_of_cons, Hin. split.
    + intros [->|(r & t' & st' & Hr & Hst' & Hs)].
      * exists row, t, st. split; [by left|done].
      * exists r, t', st'. split; [by right|done].
    + intros (r & t' & st' & [->|Hr]%elem_of_cons & Hst' & Hs).
      * left. rewrite Hst in Hst'. by injection Hst' as _ <-.
      * right. by exists r, t', st'.
Qed.

(** X22: a refresh with a tray, when the resolver returns for the job of
    every row: the jobs are evaluated once each, in the order of the rows;
    every row is updated with the state of its own job; and the tray gets
    the icon of the statuses found, which is the failure icon exactly when
    the state of some row is FAILED, CRASHED or ERROR. *)
Theorem refresh_jobs_sets_tray
    (rt : Runtime) (w : World) (self : CronMonitorApp) (old : TrayController) :
  tray self = Some old →
  (∀ row, row ∈ job_rows self →
          ∃ t st, get_job_state (row_job row) w = (t, Ret st)) →
  ∃ rows' statuses icon description,
    refresh_jobs rt self w
    = (traces_of w (row_job <$> job_rows self),
       (mk_CronMonitorApp (Some (mk_TrayController icon description))
          (jobs self) rows', Ret ())) ∧
    refreshed rt w (job_rows self) rows' statuses ∧
    row_job <$> rows' = row_job <$> job_rows self ∧
    (icon, description) = _get_global_app_status statuses ∧
    (icon = TRAY_ICON_FAIL ↔
       ∃ row t st, row ∈ job_rows self ∧
                   get_job_state (row_job row) w = (t, Ret st) ∧
                   failing (status st)).
Proof.
  intros Htray Hall.
  destruct (update_rows_ok rt w _ Hall) as (rows' & statuses & Hrun & Hfor).
  destruct (refreshed_spec _ _ _ _ _ Hfor) as (Hjobs & _ & Hin).
  destruct (_get_global_app_status statuses) as [icon description] eqn:Hglobal.
  exists rows', statuses, icon, description.
  split; [|split; [done|split; [done|split; [done|]]]].
  - unfold refresh_jobs. rewrite Htray, Hrun. by rewrite Hglobal.
  - pose proof (global_icon_fail_iff statuses) as Hfail.
    unfold global_icon in Hfail. rewrite Hglobal in Hfail. simpl in Hfail.
    rewrite Hfail. split.
    + intros (s & Hs & Hf). apply Hin in Hs as (row & t & st & Hrow & Hst & <-).
      by exists row, t, st.
    + intros (row & t & st & Hrow & Hst & Hf). exists (status st).
      split; [|done]. apply Hin. by exists row, t, st.
Qed.

Lemma refresh_jobs_sets_tray_witness :
  ∃ rows' statuses icon description,
    refresh_jobs sample_runtime
      (mk_CronMonitorApp (Some (mk_TrayController TRAY_ICON_SUCCESS ""))
         [backup_job; report_job]
         [mk_JobRow backup_job "" "" "Time: --" false false;
          mk_JobRow report_job "" "" "Time: --" false false])
      sample_world
    = (traces_of sample_world [backup_job; report_job],
       (mk_CronMonitorApp (Some (mk_TrayController icon description))
          [backup_job; report_job] rows', Ret ())) ∧
    (icon, description) = _get_global_app_status statuses.
Proof.
  destruct (refresh_jobs_sets_tray sample_runtime sample_world
              (mk_CronMonitorApp (Some (mk_TrayController TRAY_ICON_SUCCESS ""))
                 [backup_job; report_job]
                 [mk_JobRow backup_job "" "" "Time: --" false false;
                  mk_JobRow report_job "" "" "Time: --" false false])
              (mk_TrayController TRAY_ICON_SUCCESS "") eq_refl)
    as (rows' & statuses & icon & description & Hrun & _ & _ & Hglobal & _).
  - intros row Hrow.
    repeat (apply elem_of_cons in Hrow as [->|Hrow]; [by eexists _, _|]).
    by apply elem_of_nil in Hrow.
  - exists rows', statuses, icon, description. by split.
Defined.

(** X23: a refresh that cannot finish. Without a tray nothing is asked
    and nothing changes. With a tray, when the resolver raises for the job
    of a row after it returned for the rows before: the exception leaves
    [refresh_jobs], the rows before are updated, that row and the rows
    after it are as they were, no job after it is evaluated, and the tray
    keeps its old icon. *)
Theorem refresh_jobs_stops_at_exception
    (rt : Runtime) (w : World) (self : CronMonitorApp) :
  (tray self = None → refresh_jobs rt self w = ([], (self, Ret ()))) ∧
  (∀ old before row after t e,
     tray self = Some old →
     job_rows self = before ++ row :: after →
     (∀ r, r ∈ before → ∃ t' st, get_job_state (row_job r) w = (t', Ret st)) →
     get_job_state (row_job row) w = (t, Raise e) →
     ∃ before' statuses,
       refresh_jobs rt self w
       = (traces_of w (row_job <$> before) ++ t,
          (mk_CronMonitorApp (Some old) (jobs self) (before' ++ row :: after),
           Raise e)) ∧
       refreshed rt w before before' statuses).
Proof.
  split; [by unfold refresh_jobs; intros ->|].
  intros old before row after t e Htray Hrows Hall Hraise.
  assert (∃ before' statuses,
            update_rows rt (before ++ row :: after) w
            = (traces_of w (row_job <$> before) ++ t,
               (before' ++ row :: after, Raise e)) ∧
            refreshed rt w before before' statuses) as (before' & statuses & Hrun & Hfor).
  { clear Hrows. induction before as [|r rest IH].
    - exists [], []. split; [|done]. cbn [update_rows app]. by rewrite Hraise.
    - destruct (Hall r) as (t' & st & Hst); [by left|].
      destruct (JobRow_update_run rt r st) as (icon & r' & _ & Hup & _).
      destruct (IH (λ x Hx, Hall x (list_elem_of_further _ _ _ Hx)))
        as (rest' & statuses & Hrest & Hfor).
      exists (r' :: rest'), (status st :: statuses). split.
      + cbn [update_rows app]. rewrite Hst, Hup, Hrest.
        unfold traces_of. simpl. rewrite Hst. simpl. by rewrite app_assoc.
      + simpl. split; [|done]. by exists t', st. }
  exists before', statuses. split; [|done].
  unfold refresh_jobs. rewrite Htray, Hrows, Hrun. done.
Qed.

Lemma refresh_jobs_stops_at_exception_witness :
  refresh_jobs sample_runtime (mk_CronMonitorApp None [backup_job] []) sample_world
  = ([], (mk_CronMonitorApp None [backup_job] [], Ret ())) ∧
  ∃ before' statuses,
    refresh_jobs sample_runtime
      (mk_CronMonitorApp (Some (mk_TrayController TRAY_ICON_SUCCESS "")) [backup_job]
         [mk_JobRow backup_job "" "" "Time: --" false false])
      dangling_world
    = (traces_of dangling_world [] ++
         [EvSubprocess (pgrep_args "backup_script.py");
          EvGlob "/home/ops/logs/backup-*.log";
          EvStat "/home/ops/logs/latest.log"],
       (mk_CronMonitorApp (Some (mk_TrayController TRAY_ICON_SUCCESS "")) [backup_job]
          (before' ++ [mk_JobRow backup_job "" "" "Time: --" false false]),
        Raise (Exception "FileNotFoundError" "[Errno 2] No such file or directory"))) ∧
    refreshed sample_runtime dangling_world [] before' statuses.
Proof.
  split.
  - apply (proj1 (refresh_jobs_stops_at_exception sample_runtime sample_world
                    (mk_CronMonitorApp None [backup_job] []))).
    reflexivity.
  - apply (proj2 (refresh_jobs_stops_at_exception sample_runtime dangling_world
                    (mk_CronMonitorApp (Some (mk_TrayController TRAY_ICON_SUCCESS ""))
                       [backup_job]
                       [mk_JobRow backup_job "" "" "Time: --" false false]))
             (mk_TrayController TRAY_ICON_SUCCESS "")
             [] (mk_JobRow backup_job "" "" "Time: --" false false) []).
    + reflexivity.
    + reflexivity.
    + intros r Hr. by apply elem_of_nil in Hr.
    + reflexivity.
Defined.

(** * When the locator fails *)

Lemma max_loop_raises (w : World) (before : list string) (q : string)
    (after : list string) (e : exn) :
  all_stat w before → getmtime w q = Raise e →
  ∀ maxitem maxval,
    max_loop os_path_getmtime (before ++ q :: after) maxitem maxval w
    = (EvStat <$> (before ++ [q]), Raise e).
Proof.
  intros Hall Hq. induction before as [|item rest IH]; intros maxitem maxval.
  - cbn [app max_loop].
    assert (os_path_getmtime q w = ([EvStat q], Raise e)) as Hkey
      by (unfold os_path_getmtime, ask; by rewrite Hq).
    by rewrite (run_bind_raise _ _ _ _ _ Hkey).
  - destruct (Hall item) as [val Hval]; [by left|].
    assert (all_stat w rest) as Hrest by (intros x Hx; apply Hall; by right).
    assert (os_path_getmtime item w = ([EvStat item], Ret val)) as Hkey
      by (unfold os_path_getmtime, ask; by rewrite Hval).
    cbn [app max_loop]. rewrite (run_bind_ret _ _ _ _ _ Hkey).
    destruct (maxval <? val); by rewrite (IH Hrest).
Qed.

Lemma get_latest_log_file_raises (w : World) (job : Job)
    (before : list string) (q : string) (after : list string) (e : exn) :
  matching w job = before ++ q :: after →
  all_stat w before → getmtime w q = Raise e →
  get_latest_log_file job w
  = (EvGlob (expanded w job) :: (EvStat <$> (before ++ [q])), Raise e).
Proof.
  intros Hmatch Hall Hq.
  rewrite get_latest_log_file_some by (rewrite Hmatch; by destruct before).
  rewrite Hmatch.
  assert (max_key (before ++ q :: after) os_path_getmtime w
          = (EvStat <$> (before ++ [q]), Raise e)) as ->; [|done].
  destruct before as [|item rest].
  - unfold max_key. cbn [app].
    assert (os_path_getmtime q w = ([EvStat q], Raise e)) as Hkey
      by (unfold os_path_getmtime, ask; by rewrite Hq).
    by rewrite (run_bind_raise _ _ _ _ _ Hkey).
  - destruct (Hall item) as [val Hval]; [by left|].
    assert (all_stat w rest) as Hrest by (intros x Hx; apply Hall; by right).
    assert (os_path_getmtime item w = ([EvStat item], Ret val)) as Hkey
      by (unfold os_path_getmtime, ask; by rewrite Hval).
    unfold max_key. cbn [app]. rewrite (run_bind_ret _ _ _ _ _ Hkey).
    by rewrite (max_loop_raises w rest q after e Hrest Hq).
Qed.

(** X24: a matching entry without a modification time (a link to a file
    that is gone, say) makes the resolver raise, whether a process is alive
    or not: the exception of the first [getmtime] that fails leaves
    [get_job_state], after the probe, the glob and the stats up to that
    entry, and no state is returned. *)
Theorem get_job_state_raises_on_stat
    (w : World) (job : Job) (before : list string) (q : string)
    (after : list string) (e : exn) :
  matching w job = before ++ q :: after →
  all_stat w before → getmtime w q = Raise e →
  ∃ tp running,
    is_job_running (Some (process_pattern job)) w = (tp, Ret running) ∧
    get_job_state job w
    = (tp ++ EvGlob (expanded w job) :: (EvStat <$> (before ++ [q])), Raise e).
Proof.
  intros Hmatch Hall Hq.
  destruct (is_job_running_returns w (Some (process_pattern job)))
    as (tp & running & Hp & _).
  exists tp, running. split; [done|].
  pose proof (get_latest_log_file_raises w job before q after e Hmatch Hall Hq) as Hl.
  unfold get_job_state. rewrite (run_bind_ret _ _ _ _ _ Hp).
  destruct running; cbv beta iota; by rewrite (run_bind_raise _ _ _ _ _ Hl).
Qed.

Lemma get_job_state_raises_on_stat_witness :
  ∃ tp running,
    is_job_running (Some (process_pattern backup_job)) dangling_world
    = (tp, Ret running) ∧
    get_job_state backup_job dangling_world
    = (tp ++ EvGlob (expanded dangling_world backup_job)
          :: (EvStat <$> ([] ++ ["/home/ops/logs/latest.log"])),
       Raise (Exception "FileNotFoundError" "[Errno 2] No such file or directory")).
Proof.
  apply (get_job_state_raises_on_stat dangling_world backup_job []
           "/home/ops/logs/latest.log" []).
  - reflexivity.
  - intros x Hx. by apply elem_of_nil in Hx.
  - reflexivity.
Defined.
